(** * pnp_stitcher: page layout, cut lines and page sequencing

    A shallow embedding of [pnpstitcher/generator/base.py]: the class
    [BaseGenerator] with its layout routine [_generate_cut_line] and its page
    loop [generate].

    Numbers.  The Python code mixes [int] and [float].  Lengths (page size,
    margins, trim offsets, image size in inches, positions) are read here as
    exact rationals [Q]; counters and card counts are integers [Z].  Equality
    of lengths is [Qeq] ([==]).  Python's [round], [divmod], [int] and the
    truth value of a number are written out in [Module Py].

    The code computes lengths in binary64, so the rational arithmetic of
    this file is the arithmetic of the code only where the doubles do not
    round.  Statements are of two kinds.  Those about calls, counters,
    counts and order, and those that name a position by the very expression
    the code evaluates, do not depend on how lengths round.  Those that
    relate lengths by algebra carry the hypothesis [exact_units] (and
    [exact_length] of the trim offsets): lengths that are multiples of
    1/1024 of magnitude at most 2^38, on which every sum, difference,
    halving, quotient and product by a counter that the code forms is
    exactly representable, so that the code's doubles are the rationals
    computed here.  Integers too large for a double ([OverflowError]) lie
    outside these lengths and are not modelled.

    The file has three parts: the program and the vocabulary of its
    specification first, then the facts proved about them, then further
    properties of the layout and of the runs. *)

From Stdlib Require Import ZArith QArith Qround Qabs List String Bool Lia Lqa.
Import ListNotations.

Set Implicit Arguments.
Local Open Scope Q_scope.

(** * Part I: the program

    ** Python exceptions and results *)

Inductive exn : Type :=
| ZeroDivisionError
| RuntimeError (msg : string).

Inductive result (A : Type) : Type :=
| Ok (a : A)
| Raise (e : exn).

Arguments Ok {A} a.
Arguments Raise {A} e.

Definition rbind {A B : Type} (r : result A) (k : A -> result B) : result B :=
  match r with
  | Ok a => k a
  | Raise e => Raise e
  end.

Declare Scope result_scope.
Delimit Scope result_scope with result.
Notation "x <- c ;; k" := (rbind c (fun x => k))
  (at level 61, c at next level, right associativity) : result_scope.
Notation "' pat <- c ;; k" := (rbind c (fun x => match x with pat => k end))
  (at level 61, pat pattern, c at next level, right associativity) : result_scope.

(** ** The Python arithmetic the code relies on *)

Module Py.

(** [bool(x)] of a number: zero is false, everything else is true. *)
Definition truthy (x : Q) : bool := negb (Qeq_bool x 0).

(** [round(x)] with one argument: the nearest integer, ties to the even
    one. *)
Definition round (x : Q) : Z :=
  let f := Qfloor x in
  match Qcompare (x - inject_Z f) (1 # 2) with
  | Lt => f
  | Gt => (f + 1)%Z
  | Eq => if Z.even f then f else (f + 1)%Z
  end.

(** [a / b], true division. *)
Definition truediv (a b : Q) : result Q :=
  if Qeq_bool b 0 then Raise ZeroDivisionError else Ok (a / b).

(** [divmod(a, b)]: the floored quotient (still a float in Python) and the
    remainder [a - q*b]. *)
Definition divmod (a b : Q) : result (Q * Q) :=
  if Qeq_bool b 0 then Raise ZeroDivisionError
  else let q := inject_Z (Qfloor (a / b)) in Ok (q, a - q * b).

(** [int(x)]: truncation towards zero. *)
Definition int (x : Q) : Z :=
  if Qle_bool 0 x then Qfloor x else Qceiling x.

(** [range(n)] runs [n] times, and not at all for [n <= 0]. *)
Definition range_len (n : Z) : nat := Z.to_nat n.

End Py.

(** ** Data *)

(** [CutLine = namedtuple('CutLine', ['x0', 'y0', 'x1', 'y1'])] *)
Record CutLine : Type := mkCutLine { x0 : Q; y0 : Q; x1 : Q; y1 : Q }.

(** The attributes [BaseGenerator.__init__] stores; [image_scale] is not
    read by the layout or by [generate]. *)
Record BaseGenerator : Type := mkBaseGenerator {
  filename : string;
  page_width : Q;
  page_height : Q;
  page_margin_x : Q;
  page_margin_y : Q;
  image_dpi : Q;
  page_dpi : Q;
  image_scale : Q
}.

(** The keys of the [cutline_config] dict that [generate] reads. *)
Record CutlineConfig : Type := mkCutlineConfig {
  layer : string;
  trim_offset_x : Q;
  trim_offset_y : Q
}.

(** The private attributes [_generate_cut_line] assigns on [self]. *)
Record Layout : Type := mkLayout {
  _card_num_x : Z;
  _cut_margin_x : Q;
  _card_num_y : Z;
  _cut_margin_y : Q;
  _cutline_set : list CutLine
}.

(** ** [_generate_cut_line] *)

(** Lines 134-144: image size in inches, card counts and centred margins.
    These attributes are assigned before the size check, so they are computed
    for every input on which the divisions are defined. *)
Definition grid_capacity (self : BaseGenerator) (image_dimension : Z * Z)
  : result (Z * Q * (Z * Q)) :=
  (image_width <- Py.truediv (inject_Z (fst image_dimension)) (image_dpi self) ;;
   image_height <- Py.truediv (inject_Z (snd image_dimension)) (image_dpi self) ;;
   '(num_x, rem_x) <- Py.divmod
       (inject_Z (Py.round (page_width self - page_margin_x self * 2))) image_width ;;
   '(num_y, rem_y) <- Py.divmod
       (inject_Z (Py.round (page_height self - page_margin_y self * 2))) image_height ;;
   Ok (Py.int num_x, rem_x / 2 + page_margin_x self,
       (Py.int num_y, rem_y / 2 + page_margin_y self)))%result.

(** Lines 156-169: the loop over the columns, [n] iterations left. *)
Fixpoint vertical_cuts (n : nat) (prev_x image_width trim_x page_height : Q)
  : list CutLine :=
  match n with
  | O => []
  | S n' =>
      let next_x := prev_x + image_width in
      (if Py.truthy trim_x then
         let left_cut := prev_x + trim_x in
         let right_cut := next_x - trim_x in
         [mkCutLine left_cut 0 left_cut page_height;
          mkCutLine right_cut 0 right_cut page_height]
       else
         [mkCutLine next_x 0 next_x page_height])
      ++ vertical_cuts n' next_x image_width trim_x page_height
  end.

(** Lines 177-189: the loop over the rows. *)
Fixpoint horizontal_cuts (n : nat) (prev_y image_height trim_y page_width : Q)
  : list CutLine :=
  match n with
  | O => []
  | S n' =>
      let next_y := prev_y + image_height in
      (if Py.truthy trim_y then
         let top_cut := prev_y + trim_y in
         let bottom_cut := next_y - trim_y in
         [mkCutLine 0 top_cut page_width top_cut;
          mkCutLine 0 bottom_cut page_width bottom_cut]
       else
         [mkCutLine 0 next_y page_width next_y])
      ++ horizontal_cuts n' next_y image_height trim_y page_width
  end.

(** Lines 149-169: everything appended while generating the vertical lines. *)
Definition vertical_cutlines (self : BaseGenerator) (card_num_x : Z)
    (cut_margin_x image_width trim_x : Q) : list CutLine :=
  let prev_x := cut_margin_x in
  (if negb (Py.truthy trim_x)
   then [mkCutLine prev_x 0 prev_x (page_height self)] else [])
  ++ vertical_cuts (Py.range_len card_num_x) prev_x image_width trim_x
       (page_height self).

(** Lines 171-189: everything appended while generating the horizontal
    lines. *)
Definition horizontal_cutlines (self : BaseGenerator) (card_num_y : Z)
    (cut_margin_y image_height trim_y : Q) : list CutLine :=
  let prev_y := cut_margin_y in
  (if negb (Py.truthy trim_y)
   then [mkCutLine 0 prev_y (page_width self) prev_y] else [])
  ++ horizontal_cuts (Py.range_len card_num_y) prev_y image_height trim_y
       (page_width self).

Definition too_large : exn := RuntimeError "Image too large for the page"%string.

Definition _generate_cut_line (self : BaseGenerator) (image_dimension : Z * Z)
    (trim_offset : Q * Q) : result Layout :=
  (image_width <- Py.truediv (inject_Z (fst image_dimension)) (image_dpi self) ;;
   image_height <- Py.truediv (inject_Z (snd image_dimension)) (image_dpi self) ;;
   let '(trim_x, trim_y) := trim_offset in
   '(card_num_x, cut_margin_x, (card_num_y, cut_margin_y)) <-
       grid_capacity self image_dimension ;;
   if (card_num_x =? 0)%Z || (card_num_y =? 0)%Z then Raise too_large
   else
     Ok (mkLayout card_num_x cut_margin_x card_num_y cut_margin_y
           (vertical_cutlines self card_num_x cut_margin_x image_width trim_x
            ++ horizontal_cutlines self card_num_y cut_margin_y image_height
                 trim_y)))%result.

(** ** The drawing hooks and [generate] *)

Section Generate.

(** Image handles of the catalog ([PIL] images in the source). *)
Variable Image : Type.

(** [image_catalog]: the common size in pixels and the images in order. *)
Record ImageCatalog : Type := mkImageCatalog {
  image_size : Z * Z;
  image_set : list Image
}.

(** The four hooks a concrete generator implements; a run is observed
    through the calls it makes to them. *)
Inductive Event : Type :=
| InitializePage
| RenderPage
| DrawImage (image : Image) (x_pos y_pos : Q) (image_dimension : Q * Q)
| DrawCutlines (cutline_config : CutlineConfig).

(** A computation that calls hooks and may raise: the calls made so far
    and the outcome. *)
Definition M (A : Type) : Type := (list Event * result A)%type.

Definition ret {A : Type} (a : A) : M A := ([], Ok a).

Definition bind {A B : Type} (m : M A) (k : A -> M B) : M B :=
  match m with
  | (t, Ok a) => let '(t', r) := k a in (t ++ t', r)
  | (t, Raise e) => (t, Raise e)
  end.

Definition lift {A : Type} (r : result A) : M A := ([], r).

Definition call (e : Event) : M unit := ([e], Ok tt).

Declare Scope hook_scope.
Delimit Scope hook_scope with hook.
Notation "x <- c ;; k" := (bind c (fun x => k))
  (at level 61, c at next level, right associativity) : hook_scope.
Notation "' pat <- c ;; k" := (bind c (fun x => match x with pat => k end))
  (at level 61, pat pattern, c at next level, right associativity) : hook_scope.
Notation "c ;; k" := (bind c (fun _ => k))
  (at level 61, right associativity) : hook_scope.

Definition _initialize_page : M unit := call InitializePage.
Definition _render_page : M unit := call RenderPage.
Definition _draw_image (image : Image) (x_pos y_pos : Q)
    (image_dimension : Q * Q) : M unit :=
  call (DrawImage image x_pos y_pos image_dimension).
Definition _draw_cutlines (cutline_config : CutlineConfig) : M unit :=
  call (DrawCutlines cutline_config).

(** [for x in xs: s = body(s, x)] *)
Fixpoint for_in {A S : Type} (xs : list A) (s : S) (body : S -> A -> M S)
  : M S :=
  match xs with
  | [] => ret s
  | x :: xs' => (s' <- body s x ;; for_in xs' s' body)%hook
  end.

Definition when (b : bool) (m : M unit) : M unit := if b then m else ret tt.

(** Lines 55-84: one iteration of the image loop, from the counters
    [(x_cnt, y_cnt)] to the counters after it. *)
Definition loop_body (self : BaseGenerator) (lay : Layout)
    (cutline_config : CutlineConfig) (rtl : bool)
    (image_width image_height : Q) (cnt : Z * Z) (pil_image : Image)
  : M (Z * Z) :=
  let '(x_cnt, y_cnt) := cnt in
  (when ((x_cnt =? 0)%Z && (y_cnt =? 0)%Z)
     (_initialize_page ;;
      when (layer cutline_config =? "bottom")%string
        (_draw_cutlines cutline_config)) ;;
   let x_pos :=
     if rtl then
       page_width self - _cut_margin_x lay
       - (inject_Z (x_cnt + 1) * image_width)
     else _cut_margin_x lay + (inject_Z x_cnt * image_width) in
   let y_pos := _cut_margin_y lay + (inject_Z y_cnt * image_height) in
   _draw_image pil_image x_pos y_pos (image_width, image_height) ;;
   let x_cnt := (x_cnt + 1)%Z in
   let '(x_cnt, y_cnt) :=
     if (x_cnt >=? _card_num_x lay)%Z then (0%Z, (y_cnt + 1)%Z)
     else (x_cnt, y_cnt) in
   if (y_cnt >=? _card_num_y lay)%Z then
     when (layer cutline_config =? "top")%string
       (_draw_cutlines cutline_config) ;;
     _render_page ;;
     ret (0%Z, 0%Z)
   else ret (x_cnt, y_cnt))%hook.

(** Lines 42-91. *)
Definition generate (self : BaseGenerator) (image_catalog : ImageCatalog)
    (cutline_config : CutlineConfig) (rtl : bool) : M unit :=
  (lay <- lift (_generate_cut_line self (image_size image_catalog)
                  (trim_offset_x cutline_config,
                   trim_offset_y cutline_config)) ;;
   image_width <- lift (Py.truediv
       (inject_Z (fst (image_size image_catalog))) (image_dpi self)) ;;
   image_height <- lift (Py.truediv
       (inject_Z (snd (image_size image_catalog))) (image_dpi self)) ;;
   '(x_cnt, y_cnt) <- for_in (image_set image_catalog) (0%Z, 0%Z)
       (loop_body self lay cutline_config rtl image_width image_height) ;;
   when (negb (x_cnt =? 0)%Z || negb (y_cnt =? 0)%Z)
     (when (layer cutline_config =? "top")%string
        (_draw_cutlines cutline_config) ;;
      _render_page))%hook.

End Generate.

Arguments InitializePage {Image}.
Arguments RenderPage {Image}.
Arguments DrawCutlines {Image} cutline_config.

(** ** Quantities of the layout *)

(** What the divisions of [_generate_cut_line] need. *)
Definition sizes_defined (self : BaseGenerator) (image_dimension : Z * Z) : Prop :=
  ~ image_dpi self == 0
  /\ fst image_dimension <> 0%Z /\ snd image_dimension <> 0%Z.

Definition image_width_in (self : BaseGenerator) (image_dimension : Z * Z) : Q :=
  inject_Z (fst image_dimension) / image_dpi self.

Definition image_height_in (self : BaseGenerator) (image_dimension : Z * Z) : Q :=
  inject_Z (snd image_dimension) / image_dpi self.

(** The width and height left between the page margins. *)
Definition usable_width (self : BaseGenerator) : Q :=
  page_width self - page_margin_x self * 2.

Definition usable_height (self : BaseGenerator) : Q :=
  page_height self - page_margin_y self * 2.

(** The formulas of the specification, in its own words. *)
Definition spec_cards_per_row (self : BaseGenerator) (img : Z * Z) : Z :=
  Qfloor (usable_width self / image_width_in self img).

Definition spec_cut_margin_x (self : BaseGenerator) (img : Z * Z) : Q :=
  (usable_width self
   - inject_Z (spec_cards_per_row self img) * image_width_in self img) / 2
  + page_margin_x self.

Definition spec_cards_per_col (self : BaseGenerator) (img : Z * Z) : Z :=
  Qfloor (usable_height self / image_height_in self img).

Definition spec_cut_margin_y (self : BaseGenerator) (img : Z * Z) : Q :=
  (usable_height self
   - inject_Z (spec_cards_per_col self img) * image_height_in self img) / 2
  + page_margin_y self.

(** ** Cut lines *)

(** Equality of cut lines, coordinate by coordinate. *)
Definition cutline_eq (l l' : CutLine) : Prop :=
  x0 l == x0 l' /\ y0 l == y0 l' /\ x1 l == x1 l' /\ y1 l == y1 l'.

(** A full-height vertical line and a full-width horizontal line. *)
Definition vline (self : BaseGenerator) (x : Q) : CutLine :=
  mkCutLine x 0 x (page_height self).

Definition hline (self : BaseGenerator) (y : Q) : CutLine :=
  mkCutLine 0 y (page_width self) y.

Definition is_vline (self : BaseGenerator) (l : CutLine) : Prop :=
  exists x : Q, l = vline self x.

Definition is_hline (self : BaseGenerator) (l : CutLine) : Prop :=
  exists y : Q, l = hline self y.

(** Exchanging the two axes of a line. *)
Definition transpose (l : CutLine) : CutLine :=
  mkCutLine (y0 l) (x0 l) (y1 l) (x1 l).

(** The inset pairs of trim mode, in the words of the specification: for
    each column [k] below [n], with [prev = margin + k * len], a line at
    [prev + trim] and one at [prev + len - trim]. *)
Definition inset_pairs (line : Q -> CutLine) (margin len trim : Q)
    (first n : nat) : list CutLine :=
  flat_map
    (fun k : nat =>
       let prev := margin + inject_Z (Z.of_nat k) * len in
       [line (prev + trim); line (prev + len - trim)])
    (seq first n).

(** ** The image loop, iteration by iteration *)

Unset Implicit Arguments.

Section Loop.

Variable Image : Type.
Variable self : BaseGenerator.
Variable lay : Layout.
Variable rtl : bool.
Variables image_width image_height : Q.

Local Abbreviation Event := (Event Image).

(** The counters denote a fresh page. *)
Definition fresh (cnt : Z * Z) : bool :=
  ((fst cnt =? 0) && (snd cnt =? 0))%Z.

(** Lines 73-76: the counters after the move to the next cell. *)
Definition wrap (cnt : Z * Z) : Z * Z :=
  if (fst cnt + 1 >=? _card_num_x lay)%Z then (0, snd cnt + 1)%Z
  else (fst cnt + 1, snd cnt)%Z.

(** Line 79: the page is complete after this image. *)
Definition page_full (cnt : Z * Z) : bool :=
  (snd (wrap cnt) >=? _card_num_y lay)%Z.

(** The counters at the end of the iteration. *)
Definition next_cnt (cnt : Z * Z) : Z * Z :=
  if page_full cnt then (0, 0)%Z else wrap cnt.

(** Lines 62-70: the call that draws the image. *)
Definition draw_call (cnt : Z * Z) (pil_image : Image) : Event :=
  DrawImage pil_image
    (if rtl then
       page_width self - _cut_margin_x lay
       - (inject_Z (fst cnt + 1) * image_width)
     else _cut_margin_x lay + (inject_Z (fst cnt) * image_width))
    (_cut_margin_y lay + (inject_Z (snd cnt) * image_height))
    (image_width, image_height).

Definition cut_if (cfg : CutlineConfig) (name : string) : list Event :=
  if (layer cfg =? name)%string then [DrawCutlines cfg] else [].

(** The calls of one iteration. *)
Definition body_calls (cfg : CutlineConfig) (cnt : Z * Z) (pil_image : Image)
  : list Event :=
  (if fresh cnt then InitializePage :: cut_if cfg "bottom" else [])
  ++ [draw_call cnt pil_image]
  ++ (if page_full cnt then cut_if cfg "top" ++ [RenderPage] else []).

(** The calls of the whole loop and the counters it ends with. *)
Fixpoint loop_calls (cfg : CutlineConfig) (cnt : Z * Z) (images : list Image)
  : list Event :=
  match images with
  | [] => []
  | pil_image :: rest =>
      body_calls cfg cnt pil_image ++ loop_calls cfg (next_cnt cnt) rest
  end.

Fixpoint loop_cnt (cnt : Z * Z) (images : list Image) : Z * Z :=
  match images with
  | [] => cnt
  | _ :: rest => loop_cnt (next_cnt cnt) rest
  end.

(** Lines 88-91: the calls after the loop. *)
Definition final_calls (cfg : CutlineConfig) (cnt : Z * Z) : list Event :=
  if fresh cnt then [] else cut_if cfg "top" ++ [RenderPage].

End Loop.

Arguments draw_call {Image} self lay rtl image_width image_height cnt pil_image.
Arguments cut_if {Image} cfg name.
Arguments body_calls {Image} self lay rtl image_width image_height cfg cnt
  pil_image.
Arguments loop_calls {Image} self lay rtl image_width image_height cfg cnt
  images.
Arguments loop_cnt {Image} lay cnt images.
Arguments final_calls {Image} cfg cnt.

(** ** Pages *)

Section Pages.

Variable Image : Type.
Variable self : BaseGenerator.
Variable lay : Layout.
Variable rtl : bool.
Variables image_width image_height : Q.

Local Abbreviation Event := (Event Image).
Local Abbreviation draw := (draw_call self lay rtl image_width image_height).

(** The calls of one complete page around its image calls [draws]. *)
Definition page_block (cfg : CutlineConfig) (draws : list Event) : list Event :=
  InitializePage :: cut_if cfg "bottom" ++ draws
  ++ cut_if cfg "top" ++ [RenderPage].

(** The calls of a page that is still open. *)
Definition open_prefix (cfg : CutlineConfig) (acc : list Event) : list Event :=
  match acc with
  | [] => []
  | _ :: _ => InitializePage :: cut_if cfg "bottom" ++ acc
  end.

(** The image calls of the loop, grouped by page; [acc] holds those of the
    page that is open when the loop is entered. *)
Fixpoint loop_pages (cnt : Z * Z) (acc : list Event) (images : list Image)
  : list (list Event) :=
  match images with
  | [] => match acc with [] => [] | _ :: _ => [acc] end
  | pil_image :: rest =>
      if page_full lay cnt
      then (acc ++ [draw cnt pil_image]) :: loop_pages (0, 0)%Z [] rest
      else loop_pages (wrap lay cnt) (acc ++ [draw cnt pil_image]) rest
  end.

(** The image calls of the loop, in order. *)
Fixpoint loop_draws (cnt : Z * Z) (images : list Image) : list Event :=
  match images with
  | [] => []
  | pil_image :: rest =>
      draw cnt pil_image :: loop_draws (next_cnt lay cnt) rest
  end.

End Pages.

Arguments page_block {Image} cfg draws.
Arguments open_prefix {Image} cfg acc.
Arguments loop_pages {Image} self lay rtl image_width image_height cnt acc
  images.
Arguments loop_draws {Image} self lay rtl image_width image_height cnt images.

Definition nonneg (cnt : Z * Z) : Prop := (0 <= fst cnt /\ 0 <= snd cnt)%Z.

Definition is_nil {A : Type} (l : list A) : bool :=
  match l with [] => true | _ :: _ => false end.

(** ** Counting calls *)

Section Calls.

Variable Image : Type.

Local Abbreviation Event := (Event Image).

Definition is_init (e : Event) : bool :=
  match e with InitializePage => true | _ => false end.

Definition is_render (e : Event) : bool :=
  match e with RenderPage => true | _ => false end.

Definition is_draw (e : Event) : bool :=
  match e with DrawImage _ _ _ _ => true | _ => false end.

Definition is_cut (e : Event) : bool :=
  match e with DrawCutlines _ => true | _ => false end.

Definition count_calls (p : Event -> bool) (t : list Event) : nat :=
  List.length (filter p t).

(** The call [e] draws the image [i]. *)
Definition draws_image (e : Event) (i : Image) : Prop :=
  exists (x_pos y_pos : Q) (dim : Q * Q), e = DrawImage i x_pos y_pos dim.

Definition only_draws (page : list Event) : Prop :=
  Forall (fun e => is_draw e = true) page.

End Calls.

Arguments is_init {Image} e.
Arguments is_render {Image} e.
Arguments is_draw {Image} e.
Arguments is_cut {Image} e.
Arguments count_calls {Image} p t.
Arguments draws_image {Image} e i.
Arguments only_draws {Image} page.

(** ** The page grid *)

Section Grid.

Variable lay : Layout.

Definition in_grid (cnt : Z * Z) : Prop :=
  (0 <= fst cnt < _card_num_x lay /\ 0 <= snd cnt < _card_num_y lay)%Z.

(** The number of images already on the page, row by row. *)
Definition placed (cnt : Z * Z) : Z := (snd cnt * _card_num_x lay + fst cnt)%Z.

End Grid.

(** [total] images cut into pages of [cap]: full pages, then the rest. *)
Definition page_sizes (cap total : nat) : list nat :=
  repeat cap (total / cap)
  ++ (if (total mod cap =? 0)%nat then [] else [(total mod cap)%nat]).

(** The same configuration with another layer. *)
Definition with_layer (name : string) (cfg : CutlineConfig) : CutlineConfig :=
  mkCutlineConfig name (trim_offset_x cfg) (trim_offset_y cfg).

(** ** Pages and catalogs used below *)

(** The scenario of a 2100 x 2970 page with margins 30 and 600 x 900 images
    (one pixel per unit). *)
Definition a4_units : BaseGenerator :=
  mkBaseGenerator "out.pdf" 2100 2970 30 30 1 1 1.

(** A page of 8.25 x 8.25 inches with quarter-inch margins, for 4 x 4 inch
    images at 300 dpi: 7.75 usable inches on each axis. *)
Definition page_8_25 : BaseGenerator :=
  mkBaseGenerator "out.pdf" (33 # 4) (33 # 4) (1 # 4) (1 # 4) 300 96 (96 # 300).

(** A page of 2.75 x 2.75 inches with quarter-inch margins: 2.25 usable
    inches on each axis, exactly a 675 x 675 pixel image at 300 dpi. *)
Definition page_2_75 : BaseGenerator :=
  mkBaseGenerator "out.pdf" (11 # 4) (11 # 4) (1 # 4) (1 # 4) 300 96 (96 # 300).

(** A page of 2 x 3 units without margins, for one 2 x 3 image. *)
Definition page_2_3 : BaseGenerator :=
  mkBaseGenerator "out.pdf" 2 3 0 0 1 1 1.

(** A page 2 units wide with margins of 3 units on each side: the usable
    width is negative. *)
Definition page_narrow : BaseGenerator :=
  mkBaseGenerator "out.pdf" 2 2970 3 30 1 1 1.

Definition top_cfg : CutlineConfig := mkCutlineConfig "top" 0 0.

(** Ten images of 600 x 900 units, and four images too tall for the page. *)
Definition ten_images : ImageCatalog nat :=
  mkImageCatalog (600, 900)%Z (seq 0 10).

Definition tall_images : ImageCatalog nat :=
  mkImageCatalog (600, 3000)%Z (seq 0 4).

(** One image of 2 x 900 units, for the page with a negative usable width. *)
Definition narrow_images : ImageCatalog nat :=
  mkImageCatalog (2, 900)%Z [0%nat].

(** The layout of the 2100 x 2970 page for 600 x 900 images: three cards by
    three, margins 150 and 135. *)
Definition a4_layout : Layout :=
  Eval vm_compute in
    match _generate_cut_line a4_units (600, 900)%Z (0, 0) with
    | Ok l => l
    | Raise _ => mkLayout 0 0 0 0 []
    end.

(** ** Further vocabulary: clean cuts, exchanged axes, failing hooks *)

(** A length on which the arithmetic of the code is exact: a multiple of
    1/1024 of magnitude at most 2^38. *)
Definition exact_length (q : Q) : Prop :=
  exists z : Z, q == inject_Z z / 1024 /\ (Z.abs z <= 2 ^ 48)%Z.

(** The page, its margins, the dpi and the image size in pixels and in
    inches are such lengths. *)
Definition exact_units (self : BaseGenerator) (image_dimension : Z * Z) : Prop :=
  exact_length (page_width self) /\ exact_length (page_height self)
  /\ exact_length (page_margin_x self) /\ exact_length (page_margin_y self)
  /\ exact_length (image_dpi self)
  /\ (Z.abs (fst image_dimension) <= 2 ^ 48)%Z
  /\ (Z.abs (snd image_dimension) <= 2 ^ 48)%Z
  /\ exact_length (image_width_in self image_dimension)
  /\ exact_length (image_height_in self image_dimension).

(** The pairs of trim mode as the code accumulates them: for [n] columns,
    with [prev] advanced by [len] after each, a line at [prev + trim] and one
    at [(prev + len) - trim]. *)
Fixpoint column_pairs (line : Q -> CutLine) (prev len trim : Q) (n : nat)
  : list CutLine :=
  match n with
  | O => []
  | S n' =>
      [line (prev + trim); line (prev + len - trim)]
      ++ column_pairs line (prev + len) len trim n'
  end.

(** The counters lie in the grid, a grid without cards counting as one
    cell. *)
Definition in_cells (lay : Layout) (cnt : Z * Z) : Prop :=
  (0 <= fst cnt < Z.max 1 (_card_num_x lay)
   /\ 0 <= snd cnt < Z.max 1 (_card_num_y lay))%Z.

(** The boundary lines of a clean cut: for each [k] from [first], [n] of
    them, a line at [margin + k * len]. *)
Definition clean_lines (line : Q -> CutLine) (margin len : Q)
    (first n : nat) : list CutLine :=
  map (fun k : nat => line (margin + inject_Z (Z.of_nat k) * len))
    (seq first n).

(** The generator of the page turned by a quarter: width and height, and
    the two margins, exchanged. *)
Definition transpose_page (self : BaseGenerator) : BaseGenerator :=
  mkBaseGenerator (filename self) (page_height self) (page_width self)
    (page_margin_y self) (page_margin_x self) (image_dpi self)
    (page_dpi self) (image_scale self).

Section Surface.

Variable Image : Type.

Local Abbreviation Event := (Event Image).
Local Abbreviation M := (M Image).
Local Abbreviation ret := (ret Image).
Local Abbreviation lift := (lift Image).

Declare Scope surface_scope.
Delimit Scope surface_scope with surface.
Notation "x <- c ;; k" := (bind c (fun x => k))
  (at level 61, c at next level, right associativity) : surface_scope.
Notation "' pat <- c ;; k" := (bind c (fun x => match x with pat => k end))
  (at level 61, pat pattern, c at next level, right associativity)
  : surface_scope.
Notation "c ;; k" := (bind c (fun _ => k))
  (at level 61, right associativity) : surface_scope.

(** The four methods a subclass overrides ([generate] calls them on
    [self]). *)
Record Hooks : Type := mkHooks {
  initialize_page : M unit;
  render_page : M unit;
  draw_image : Image -> Q -> Q -> Q * Q -> M unit;
  draw_cutlines : CutlineConfig -> M unit
}.

(** Lines 55-84 with the hooks of a given subclass. *)
Definition loop_body_with (hooks : Hooks) (self : BaseGenerator) (lay : Layout)
    (cutline_config : CutlineConfig) (rtl : bool)
    (image_width image_height : Q) (cnt : Z * Z) (pil_image : Image)
  : M (Z * Z) :=
  let '(x_cnt, y_cnt) := cnt in
  (when ((x_cnt =? 0)%Z && (y_cnt =? 0)%Z)
     (initialize_page hooks ;;
      when (layer cutline_config =? "bottom")%string
        (draw_cutlines hooks cutline_config)) ;;
   let x_pos :=
     if rtl then
       page_width self - _cut_margin_x lay
       - (inject_Z (x_cnt + 1) * image_width)
     else _cut_margin_x lay + (inject_Z x_cnt * image_width) in
   let y_pos := _cut_margin_y lay + (inject_Z y_cnt * image_height) in
   draw_image hooks pil_image x_pos y_pos (image_width, image_height) ;;
   let x_cnt := (x_cnt + 1)%Z in
   let '(x_cnt, y_cnt) :=
     if (x_cnt >=? _card_num_x lay)%Z then (0%Z, (y_cnt + 1)%Z)
     else (x_cnt, y_cnt) in
   if (y_cnt >=? _card_num_y lay)%Z then
     when (layer cutline_config =? "top")%string
       (draw_cutlines hooks cutline_config) ;;
     render_page hooks ;;
     ret (0%Z, 0%Z)
   else ret (x_cnt, y_cnt))%surface.

(** Lines 42-91 with the hooks of a given subclass. *)
Definition generate_with (hooks : Hooks) (self : BaseGenerator)
    (image_catalog : ImageCatalog Image) (cutline_config : CutlineConfig)
    (rtl : bool) : M unit :=
  (lay <- lift (_generate_cut_line self (image_size image_catalog)
                  (trim_offset_x cutline_config,
                   trim_offset_y cutline_config)) ;;
   image_width <- lift (Py.truediv
       (inject_Z (fst (image_size image_catalog))) (image_dpi self)) ;;
   image_height <- lift (Py.truediv
       (inject_Z (snd (image_size image_catalog))) (image_dpi self)) ;;
   '(x_cnt, y_cnt) <- for_in (image_set image_catalog) (0%Z, 0%Z)
       (loop_body_with hooks self lay cutline_config rtl image_width
          image_height) ;;
   when (negb (x_cnt =? 0)%Z || negb (y_cnt =? 0)%Z)
     (when (layer cutline_config =? "top")%string
        (draw_cutlines hooks cutline_config) ;;
      render_page hooks))%surface.

(** A hook that is called and then raises [e] when [fails] holds of the
    call. *)
Definition guard (fails : Event -> bool) (e : exn) (ev : Event) : M unit :=
  ([ev], if fails ev then Raise e else Ok tt).

Definition guarded (fails : Event -> bool) (e : exn) : Hooks :=
  mkHooks (guard fails e InitializePage) (guard fails e RenderPage)
    (fun image x_pos y_pos dim => guard fails e (DrawImage image x_pos y_pos dim))
    (fun cfg => guard fails e (DrawCutlines cfg)).

(** The calls up to and including the first one on which [fails] holds. *)
Fixpoint cut_at (fails : Event -> bool) (t : list Event) : list Event :=
  match t with
  | [] => []
  | ev :: t' => ev :: (if fails ev then [] else cut_at fails t')
  end.

(** The image call lies between the page margins. *)
Definition inside_margins (self : BaseGenerator) (ev : Event) : Prop :=
  match ev with
  | DrawImage _ x_pos y_pos (w, h) =>
      page_margin_x self <= x_pos
      /\ x_pos + w <= page_width self - page_margin_x self
      /\ page_margin_y self <= y_pos
      /\ y_pos + h <= page_height self - page_margin_y self
  | _ => True
  end.

End Surface.

Arguments mkHooks {Image} initialize_page render_page draw_image draw_cutlines.
Arguments initialize_page {Image} h.
Arguments render_page {Image} h.
Arguments draw_image {Image} h.
Arguments draw_cutlines {Image} h.
Arguments loop_body_with {Image} hooks self lay cutline_config rtl image_width
  image_height cnt pil_image.
Arguments generate_with {Image} hooks self image_catalog cutline_config rtl.
Arguments guard {Image} fails e ev.
Arguments guarded {Image} fails e.
Arguments cut_at {Image} fails t.
Arguments inside_margins {Image} self ev.

(** * Part II: facts

    ** The Python arithmetic *)

Set Implicit Arguments.

Lemma Qeq_bool_false_iff (x y : Q) : Qeq_bool x y = false <-> ~ x == y.
Proof.
  split.
  - intros H E. apply Qeq_eq_bool in E. congruence.
  - intros H. destruct (Qeq_bool x y) eqn:E; [|reflexivity].
    apply Qeq_bool_eq in E. contradiction.
Qed.

Lemma truthy_true_iff (x : Q) : Py.truthy x = true <-> ~ x == 0.
Proof.
  unfold Py.truthy. rewrite negb_true_iff. apply Qeq_bool_false_iff.
Qed.

Lemma truthy_false_iff (x : Q) : Py.truthy x = false <-> x == 0.
Proof.
  unfold Py.truthy. rewrite negb_false_iff. split.
  - apply Qeq_bool_eq.
  - apply Qeq_eq_bool.
Qed.

Lemma truthy_pos (x : Q) : 0 < x -> Py.truthy x = true.
Proof.
  intros H. apply truthy_true_iff. intros E. rewrite E in H.
  exact (Qlt_irrefl 0 H).
Qed.

Lemma int_inject_Z (z : Z) : Py.int (inject_Z z) = z.
Proof.
  unfold Py.int. destruct (Qle_bool 0 (inject_Z z)).
  - apply Qfloor_Z.
  - apply Qceiling_Z.
Qed.

Lemma round_inject_Z (z : Z) : Py.round (inject_Z z) = z.
Proof.
  unfold Py.round. rewrite Qfloor_Z.
  assert (E : Qcompare (inject_Z z - inject_Z z) (1 # 2) = Lt).
  { apply -> Qlt_alt. setoid_replace (inject_Z z - inject_Z z) with 0 by ring.
    reflexivity. }
  now rewrite E.
Qed.

Lemma round_whole (x : Q) (z : Z) : x == inject_Z z -> Py.round x = z.
Proof.
  intros E. unfold Py.round.
  assert (F : Qfloor x = z) by (rewrite E; apply Qfloor_Z).
  rewrite F.
  assert (C : Qcompare (x - inject_Z z) (1 # 2) = Lt).
  { apply -> Qlt_alt. setoid_replace (x - inject_Z z) with 0 by (rewrite E; ring).
    reflexivity. }
  now rewrite C.
Qed.

Lemma truediv_ok (a b : Q) : ~ b == 0 -> Py.truediv a b = Ok (a / b).
Proof.
  intros H. unfold Py.truediv.
  now rewrite (proj2 (Qeq_bool_false_iff b 0) H).
Qed.

Lemma divmod_ok (a b : Q) :
  ~ b == 0 ->
  Py.divmod a b
  = Ok (inject_Z (Qfloor (a / b)), a - inject_Z (Qfloor (a / b)) * b).
Proof.
  intros H. unfold Py.divmod.
  now rewrite (proj2 (Qeq_bool_false_iff b 0) H).
Qed.

Lemma inches_nonzero (px : Z) (dpi : Q) :
  ~ dpi == 0 -> px <> 0%Z -> ~ inject_Z px / dpi == 0.
Proof.
  intros Hd Hp E.
  assert (E' : inject_Z px == 0).
  { setoid_replace (inject_Z px) with (inject_Z px / dpi * dpi)
      by (field; exact Hd).
    rewrite E. ring. }
  apply Hp. unfold Qeq in E'. simpl in E'. lia.
Qed.

(** The remainder of [divmod] by a positive length lies in [[0, b)]. *)
Lemma divmod_remainder_bounds (a b : Q) :
  0 < b ->
  0 <= a - inject_Z (Qfloor (a / b)) * b
  /\ a - inject_Z (Qfloor (a / b)) * b < b.
Proof.
  intros Hb.
  pose proof (Qfloor_le (a / b)) as Hl.
  pose proof (Qlt_floor (a / b)) as Hu.
  assert (Hne : ~ b == 0) by (intros E; rewrite E in Hb; exact (Qlt_irrefl 0 Hb)).
  rewrite inject_Z_plus in Hu. change (inject_Z 1) with 1 in Hu.
  assert (E : a - inject_Z (Qfloor (a / b)) * b
              == (a / b - inject_Z (Qfloor (a / b))) * b) by (field; exact Hne).
  set (q := inject_Z (Qfloor (a / b))) in *.
  set (d := a / b) in *. clearbody q d.
  rewrite E. split.
  - apply Qmult_le_0_compat; lra.
  - assert (P : 0 < (1 - (d - q)) * b) by (apply Qmult_lt_0_compat; lra).
    setoid_replace ((1 - (d - q)) * b) with (b - (d - q) * b) in P by ring.
    lra.
Qed.

Lemma floor_of_equal (a b : Q) : ~ b == 0 -> a == b -> Qfloor (a / b) = 1%Z.
Proof.
  intros Hb E.
  assert (E1 : a / b == inject_Z 1) by (rewrite E; field; exact Hb).
  rewrite E1. apply Qfloor_Z.
Qed.

(** ** Grid capacity *)

Lemma grid_capacity_defined (self : BaseGenerator) (img : Z * Z) :
  sizes_defined self img ->
  grid_capacity self img
  = Ok (Qfloor (inject_Z (Py.round (usable_width self)) / image_width_in self img),
        (inject_Z (Py.round (usable_width self))
         - inject_Z (Qfloor (inject_Z (Py.round (usable_width self))
                             / image_width_in self img))
           * image_width_in self img) / 2 + page_margin_x self,
        (Qfloor (inject_Z (Py.round (usable_height self)) / image_height_in self img),
         (inject_Z (Py.round (usable_height self))
          - inject_Z (Qfloor (inject_Z (Py.round (usable_height self))
                              / image_height_in self img))
            * image_height_in self img) / 2 + page_margin_y self)).
Proof.
  intros (Hd & Hw & Hh). unfold grid_capacity.
  rewrite !truediv_ok by exact Hd. cbn [rbind].
  rewrite divmod_ok by (apply inches_nonzero; assumption). cbn [rbind].
  rewrite divmod_ok by (apply inches_nonzero; assumption). cbn [rbind].
  rewrite !int_inject_Z. reflexivity.
Qed.

Lemma grid_capacity_undefined (self : BaseGenerator) (img : Z * Z) :
  ~ sizes_defined self img ->
  grid_capacity self img = Raise ZeroDivisionError.
Proof.
  intros H. unfold grid_capacity, Py.truediv, Py.divmod.
  destruct (Qeq_bool (image_dpi self) 0) eqn:Ed; [reflexivity|].
  cbn [rbind].
  apply Qeq_bool_false_iff in Ed.
  destruct (Qeq_bool (inject_Z (fst img) / image_dpi self) 0) eqn:Ew;
    [reflexivity|].
  cbn [rbind].
  destruct (Qeq_bool (inject_Z (snd img) / image_dpi self) 0) eqn:Eh;
    [reflexivity|].
  exfalso. apply H. repeat split; [exact Ed| |].
  - intros E. apply Qeq_bool_false_iff in Ew. apply Ew. rewrite E.
    unfold Qdiv. ring.
  - intros E. apply Qeq_bool_false_iff in Eh. apply Eh. rewrite E.
    unfold Qdiv. ring.
Qed.

Lemma grid_capacity_raises (self : BaseGenerator) (img : Z * Z) (e : exn) :
  grid_capacity self img = Raise e -> e = ZeroDivisionError.
Proof.
  unfold grid_capacity, Py.truediv, Py.divmod.
  destruct (Qeq_bool (image_dpi self) 0); cbn [rbind];
    [intros E; injection E as <-; reflexivity|].
  destruct (Qeq_bool (inject_Z (fst img) / image_dpi self) 0); cbn [rbind];
    [intros E; injection E as <-; reflexivity|].
  destruct (Qeq_bool (inject_Z (snd img) / image_dpi self) 0); cbn [rbind];
    [intros E; injection E as <-; reflexivity|].
  discriminate.
Qed.

Lemma generate_cut_line_unfold (self : BaseGenerator) (img : Z * Z) (trim : Q * Q) :
  _generate_cut_line self img trim
  = match grid_capacity self img with
    | Raise e => Raise e
    | Ok (card_num_x, cut_margin_x, (card_num_y, cut_margin_y)) =>
        if (card_num_x =? 0)%Z || (card_num_y =? 0)%Z then Raise too_large
        else Ok (mkLayout card_num_x cut_margin_x card_num_y cut_margin_y
                   (vertical_cutlines self card_num_x cut_margin_x
                      (image_width_in self img) (fst trim)
                    ++ horizontal_cutlines self card_num_y cut_margin_y
                         (image_height_in self img) (snd trim)))
    end.
Proof.
  destruct trim as [trim_x trim_y].
  unfold _generate_cut_line, grid_capacity, Py.truediv,
    image_width_in, image_height_in.
  destruct (Qeq_bool (image_dpi self) 0); reflexivity.
Qed.

(** What a successful layout holds. *)
Lemma generate_cut_line_ok (self : BaseGenerator) (img : Z * Z) (trim : Q * Q)
    (lay : Layout) :
  _generate_cut_line self img trim = Ok lay ->
  grid_capacity self img
  = Ok (_card_num_x lay, _cut_margin_x lay, (_card_num_y lay, _cut_margin_y lay))
  /\ _card_num_x lay <> 0%Z /\ _card_num_y lay <> 0%Z
  /\ _cutline_set lay
     = vertical_cutlines self (_card_num_x lay) (_cut_margin_x lay)
         (image_width_in self img) (fst trim)
       ++ horizontal_cutlines self (_card_num_y lay) (_cut_margin_y lay)
            (image_height_in self img) (snd trim).
Proof.
  rewrite generate_cut_line_unfold.
  destruct (grid_capacity self img) as [[[nx mx] [ny my]]|e]; [|discriminate].
  destruct ((nx =? 0)%Z || (ny =? 0)%Z) eqn:B; [discriminate|].
  intros E. injection E as <-. cbn.
  apply orb_false_iff in B. repeat split; try reflexivity; lia.
Qed.

(** When the usable width is a whole number, rounding changes nothing and
    the formulas of the specification give the computed values. *)
Lemma grid_capacity_whole_extent (self : BaseGenerator) (img : Z * Z)
    (uw uh : Z) :
  sizes_defined self img ->
  usable_width self == inject_Z uw ->
  usable_height self == inject_Z uh ->
  exists (mx my : Q),
    grid_capacity self img
    = Ok (spec_cards_per_row self img, mx, (spec_cards_per_col self img, my))
    /\ mx == spec_cut_margin_x self img
    /\ my == spec_cut_margin_y self img.
Proof.
  intros H Ew Eh. rewrite (grid_capacity_defined H).
  rewrite (round_whole Ew), (round_whole Eh).
  unfold spec_cut_margin_x, spec_cut_margin_y,
    spec_cards_per_row, spec_cards_per_col.
  assert (Fx : Qfloor (inject_Z uw / image_width_in self img)
               = Qfloor (usable_width self / image_width_in self img))
    by (rewrite Ew; reflexivity).
  assert (Fy : Qfloor (inject_Z uh / image_height_in self img)
               = Qfloor (usable_height self / image_height_in self img))
    by (rewrite Eh; reflexivity).
  rewrite Fx, Fy.
  generalize (Qfloor (usable_width self / image_width_in self img)).
  generalize (Qfloor (usable_height self / image_height_in self img)).
  intros ny nx.
  do 2 eexists. split; [reflexivity|].
  split; [rewrite Ew | rewrite Eh]; reflexivity.
Qed.

(** C1, at a page with 7.75 usable inches and 4 inch images: the code
    rounds 7.75 to 8 and fits two cards per row and per column with no
    remainder, where the formula of the claim gives one card and a centring
    margin of 2.125 inches. *)
Lemma C1_counterexample :
  exists mx my : Q,
    grid_capacity page_8_25 (1200, 1200)%Z = Ok (2%Z, mx, (2%Z, my))
    /\ mx == 1 # 4 /\ my == 1 # 4
    /\ spec_cards_per_row page_8_25 (1200, 1200)%Z = 1%Z
    /\ spec_cut_margin_x page_8_25 (1200, 1200)%Z == 17 # 8
    /\ spec_cards_per_col page_8_25 (1200, 1200)%Z = 1%Z
    /\ spec_cut_margin_y page_8_25 (1200, 1200)%Z == 17 # 8.
Proof.
  exists (600 # 2400), (600 # 2400).
  repeat split; reflexivity.
Qed.

(** C1 (amended): on exactly representable lengths, whenever the
    divisions are defined, the card counts and margins are those of the
    formulas of the claim applied to the usable width and height rounded to
    the nearest integer: [cardsPerRow] is the floor of the rounded usable
    width over the image width, and [cutMarginX] is half of what the cards
    leave of the rounded width, plus the page margin; likewise on the
    vertical axis. *)
Theorem C1_grid_capacity_on_exact_lengths
    (self : BaseGenerator) (img : Z * Z) :
  sizes_defined self img ->
  exact_units self img ->
  exists (nx ny : Z) (mx my : Q),
    grid_capacity self img = Ok (nx, mx, (ny, my))
    /\ nx = Qfloor (inject_Z (Py.round (usable_width self))
                    / image_width_in self img)
    /\ mx == (inject_Z (Py.round (usable_width self))
              - inject_Z nx * image_width_in self img) / 2
             + page_margin_x self
    /\ ny = Qfloor (inject_Z (Py.round (usable_height self))
                    / image_height_in self img)
    /\ my == (inject_Z (Py.round (usable_height self))
              - inject_Z ny * image_height_in self img) / 2
             + page_margin_y self.
Proof.
  intros H _. rewrite (grid_capacity_defined H).
  do 4 eexists. split; [reflexivity|].
  repeat split; reflexivity.
Qed.

Lemma exact_length_of_Z (z : Z) :
  (Z.abs z <= 2 ^ 38)%Z -> exact_length (inject_Z z).
Proof.
  intros B. exists (z * 1024)%Z. split.
  - rewrite inject_Z_mult. change (inject_Z 1024) with 1024. field.
  - change (2 ^ 48)%Z with (2 ^ 38 * 1024)%Z. rewrite Z.abs_mul.
    change (Z.abs 1024) with 1024%Z. nia.
Qed.

Lemma small_Z (z : Z) : (Z.abs z <=? 2 ^ 38)%Z = true -> (Z.abs z <= 2 ^ 38)%Z.
Proof. apply Z.leb_le. Qed.

Lemma a4_exact_units : exact_units a4_units (600, 900)%Z.
Proof.
  unfold exact_units.
  split; [apply (@exact_length_of_Z 2100), small_Z; reflexivity|].
  split; [apply (@exact_length_of_Z 2970), small_Z; reflexivity|].
  split; [apply (@exact_length_of_Z 30), small_Z; reflexivity|].
  split; [apply (@exact_length_of_Z 30), small_Z; reflexivity|].
  split; [apply (@exact_length_of_Z 1), small_Z; reflexivity|].
  split; [apply Z.leb_le; reflexivity|].
  split; [apply Z.leb_le; reflexivity|].
  split.
  - exists (600 * 1024)%Z. split; [reflexivity | apply Z.leb_le; reflexivity].
  - exists (900 * 1024)%Z. split; [reflexivity | apply Z.leb_le; reflexivity].
Qed.

Lemma C1_grid_capacity_on_exact_lengths_witness :
  sizes_defined a4_units (600, 900)%Z
  /\ exists (nx ny : Z) (mx my : Q),
       grid_capacity a4_units (600, 900)%Z = Ok (nx, mx, (ny, my))
       /\ nx = 3%Z /\ mx == 150 /\ ny = 3%Z /\ my == 135.
Proof.
  assert (H : sizes_defined a4_units (600, 900)%Z).
  { repeat split; simpl; [intros E; discriminate E | lia | lia]. }
  split; [exact H|].
  destruct (C1_grid_capacity_on_exact_lengths H a4_exact_units)
    as (nx & ny & mx & my & E & Hx & Hmx & Hy & Hmy).
  exists nx, ny, mx, my. split; [exact E|].
  assert (Ex : nx = 3%Z) by (rewrite Hx; reflexivity).
  assert (Ey : ny = 3%Z) by (rewrite Hy; reflexivity).
  repeat split.
  - exact Ex.
  - rewrite Hmx, Ex. reflexivity.
  - exact Ey.
  - rewrite Hmy, Ey. reflexivity.
Defined.

(** C2, at a page with 2.25 usable inches on each axis and an image of
    exactly 2.25 x 2.25 inches: the usable extent is rounded to 2, no card
    fits, and the layout is refused. *)
Lemma C2_counterexample :
  image_width_in page_2_75 (675, 675)%Z == usable_width page_2_75
  /\ image_height_in page_2_75 (675, 675)%Z == usable_height page_2_75
  /\ _generate_cut_line page_2_75 (675, 675)%Z (0, 0) = Raise too_large.
Proof.
  repeat split; reflexivity.
Qed.

(** C2 (amended): for an image exactly equal to the usable page area, when
    the usable width and height are whole numbers of units, the layout
    succeeds with one card per row and per column, and the cut margins are
    the page margins. *)
Theorem C2_image_equal_to_whole_usable_area
    (self : BaseGenerator) (img : Z * Z) (trim : Q * Q) (uw uh : Z) :
  sizes_defined self img ->
  image_width_in self img == usable_width self ->
  image_height_in self img == usable_height self ->
  usable_width self == inject_Z uw ->
  usable_height self == inject_Z uh ->
  exists lay : Layout,
    _generate_cut_line self img trim = Ok lay
    /\ _card_num_x lay = 1%Z /\ _card_num_y lay = 1%Z
    /\ _cut_margin_x lay == page_margin_x self
    /\ _cut_margin_y lay == page_margin_y self.
Proof.
  intros H Ex Ey Ew Eh.
  pose proof H as (Hd & Hw & Hh).
  assert (Nx : ~ image_width_in self img == 0)
    by (apply inches_nonzero; assumption).
  assert (Ny : ~ image_height_in self img == 0)
    by (apply inches_nonzero; assumption).
  rewrite generate_cut_line_unfold, (grid_capacity_defined H).
  rewrite (round_whole Ew), (round_whole Eh).
  assert (Fx : Qfloor (inject_Z uw / image_width_in self img) = 1%Z)
    by (apply floor_of_equal; [exact Nx | rewrite <- Ew, Ex; reflexivity]).
  assert (Fy : Qfloor (inject_Z uh / image_height_in self img) = 1%Z)
    by (apply floor_of_equal; [exact Ny | rewrite <- Eh, Ey; reflexivity]).
  rewrite Fx, Fy. cbn [Z.eqb orb].
  eexists. split; [reflexivity|]. cbn.
  repeat split; try reflexivity.
  - rewrite <- Ew, <- Ex. field.
  - rewrite <- Eh, <- Ey. field.
Qed.

Lemma C2_image_equal_to_whole_usable_area_witness :
  exists lay : Layout,
    _generate_cut_line page_2_3 (2, 3)%Z (0, 0) = Ok lay
    /\ _card_num_x lay = 1%Z /\ _card_num_y lay = 1%Z
    /\ _cut_margin_x lay == page_margin_x page_2_3
    /\ _cut_margin_y lay == page_margin_y page_2_3.
Proof.
  apply (@C2_image_equal_to_whole_usable_area page_2_3 (2, 3)%Z (0, 0) 2 3).
  - repeat split; simpl; [intros E; discriminate E | lia | lia].
  - reflexivity.
  - reflexivity.
  - reflexivity.
  - reflexivity.
Defined.

Section LayoutError.

Variable Image : Type.

Lemma generate_layout_raises (self : BaseGenerator)
    (cat : ImageCatalog Image) (cfg : CutlineConfig) (rtl : bool) (e : exn) :
  _generate_cut_line self (image_size cat)
    (trim_offset_x cfg, trim_offset_y cfg) = Raise e ->
  generate self cat cfg rtl = ([], Raise e).
Proof.
  intros E. unfold generate. rewrite E. reflexivity.
Qed.

(** C3: the layout is refused with the error "Image too large for the
    page" if and only if the computed number of cards per row or per
    column is zero, and [generate] then raises that error without having
    called any hook: the list of calls is empty. *)
Theorem C3_layout_error_iff_zero_cards
    (self : BaseGenerator) (cat : ImageCatalog Image) (cfg : CutlineConfig)
    (rtl : bool) :
  (_generate_cut_line self (image_size cat)
     (trim_offset_x cfg, trim_offset_y cfg) = Raise too_large
   <-> exists (nx ny : Z) (mx my : Q),
         grid_capacity self (image_size cat) = Ok (nx, mx, (ny, my))
         /\ (nx = 0%Z \/ ny = 0%Z))
  /\ (_generate_cut_line self (image_size cat)
        (trim_offset_x cfg, trim_offset_y cfg) = Raise too_large ->
      generate self cat cfg rtl = ([], Raise too_large)).
Proof.
  split; [|apply generate_layout_raises].
  rewrite generate_cut_line_unfold.
  destruct (grid_capacity self (image_size cat))
    as [[[nx mx] [ny my]]|e] eqn:E.
  - destruct ((nx =? 0)%Z || (ny =? 0)%Z) eqn:B.
    + split; [|reflexivity]. intros _. exists nx, ny, mx, my.
      split; [reflexivity|]. apply orb_true_iff in B. lia.
    + split; [discriminate|].
      intros (nx' & ny' & mx' & my' & E' & Hz).
      injection E' as -> _ -> _.
      apply orb_false_iff in B. lia.
  - split.
    + intros R. injection R as ->.
      apply grid_capacity_raises in E. discriminate E.
    + intros (nx & ny & mx & my & E' & _). discriminate E'.
Qed.

End LayoutError.

Lemma C3_layout_error_iff_zero_cards_witness :
  generate a4_units tall_images top_cfg false = ([], Raise too_large).
Proof.
  apply (proj2 (@C3_layout_error_iff_zero_cards nat a4_units tall_images
                  top_cfg false)).
  reflexivity.
Defined.

(** ** The cut lines *)

Lemma horizontal_cuts_transpose (n : nat) (prev len trim extent : Q) :
  horizontal_cuts n prev len trim extent
  = map transpose (vertical_cuts n prev len trim extent).
Proof.
  revert prev. induction n as [|n IH]; intros prev; [reflexivity|].
  cbn [horizontal_cuts vertical_cuts]. rewrite map_app, IH.
  destruct (Py.truthy trim); reflexivity.
Qed.

Lemma vertical_cuts_length (n : nat) (prev len trim extent : Q) :
  List.length (vertical_cuts n prev len trim extent)
  = if Py.truthy trim then (2 * n)%nat else n.
Proof.
  revert prev. induction n as [|n IH]; intros prev.
  - destruct (Py.truthy trim); reflexivity.
  - cbn [vertical_cuts]. rewrite length_app, IH.
    destruct (Py.truthy trim); simpl; lia.
Qed.

Lemma vertical_cuts_shape (n : nat) (prev len trim extent : Q) :
  Forall (fun l => exists x : Q, l = mkCutLine x 0 x extent)
    (vertical_cuts n prev len trim extent).
Proof.
  revert prev. induction n as [|n IH]; intros prev; [constructor|].
  cbn [vertical_cuts]. apply Forall_app. split; [|apply IH].
  destruct (Py.truthy trim); repeat constructor; eexists; reflexivity.
Qed.

Lemma vertical_cutlines_length (self : BaseGenerator) (n : Z) (cm len trim : Q) :
  List.length (vertical_cutlines self n cm len trim)
  = if Py.truthy trim then (2 * Z.to_nat n)%nat else S (Z.to_nat n).
Proof.
  unfold vertical_cutlines, Py.range_len.
  rewrite length_app, vertical_cuts_length.
  destruct (Py.truthy trim); reflexivity.
Qed.

Lemma horizontal_cutlines_length (self : BaseGenerator) (n : Z) (cm len trim : Q) :
  List.length (horizontal_cutlines self n cm len trim)
  = if Py.truthy trim then (2 * Z.to_nat n)%nat else S (Z.to_nat n).
Proof.
  unfold horizontal_cutlines, Py.range_len.
  rewrite length_app, horizontal_cuts_transpose, length_map,
    vertical_cuts_length.
  destruct (Py.truthy trim); reflexivity.
Qed.

Lemma vertical_cutlines_shape (self : BaseGenerator) (n : Z) (cm len trim : Q) :
  Forall (is_vline self) (vertical_cutlines self n cm len trim).
Proof.
  unfold vertical_cutlines. apply Forall_app. split.
  - destruct (Py.truthy trim); repeat constructor. exists cm. reflexivity.
  - apply vertical_cuts_shape.
Qed.

Lemma horizontal_cutlines_shape (self : BaseGenerator) (n : Z) (cm len trim : Q) :
  Forall (is_hline self) (horizontal_cutlines self n cm len trim).
Proof.
  unfold horizontal_cutlines. apply Forall_app. split.
  - destruct (Py.truthy trim); repeat constructor. exists cm. reflexivity.
  - rewrite horizontal_cuts_transpose, Forall_map.
    eapply Forall_impl; [|apply vertical_cuts_shape].
    intros l (x & ->). exists x. reflexivity.
Qed.

(** C4, on a page whose margins exceed half its width: the layout is
    accepted with [-2] cards per row, and the vertical lines are the single
    line at the left margin, not [-2 + 1] lines. *)
Lemma C4_counterexample :
  exists lay : Layout,
    _generate_cut_line page_narrow (2, 900)%Z (0, 0) = Ok lay
    /\ _card_num_x lay = (-2)%Z
    /\ _cutline_set lay
       = vertical_cutlines page_narrow (-2) (_cut_margin_x lay) 2 0
         ++ horizontal_cutlines page_narrow 3 (_cut_margin_y lay) 900 0
    /\ vertical_cutlines page_narrow (-2) (_cut_margin_x lay) 2 0
       = [vline page_narrow (_cut_margin_x lay)]
    /\ Z.of_nat (List.length
                   (vertical_cutlines page_narrow (-2) (_cut_margin_x lay) 2 0))
       <> (_card_num_x lay + 1)%Z.
Proof.
  eexists. split; [reflexivity|]. cbn.
  repeat split; try reflexivity. discriminate.
Qed.

(** C4 (amended): a successful layout holds the vertical lines followed by
    the horizontal lines, all full-height and full-width respectively; when
    the number of cards per row is at least one, there are [cardsPerRow + 1]
    vertical lines for a zero horizontal trim offset and [2 * cardsPerRow]
    for a positive one; likewise for the horizontal lines with the number
    of cards per column and the vertical trim offset. *)
Theorem C4_cut_line_counts
    (self : BaseGenerator) (img : Z * Z) (trim : Q * Q) (lay : Layout) :
  _generate_cut_line self img trim = Ok lay ->
  exists V H : list CutLine,
    _cutline_set lay = V ++ H
    /\ Forall (is_vline self) V /\ Forall (is_hline self) H
    /\ ((1 <= _card_num_x lay)%Z ->
        (fst trim == 0 -> Z.of_nat (List.length V) = (_card_num_x lay + 1)%Z)
        /\ (0 < fst trim -> Z.of_nat (List.length V) = (2 * _card_num_x lay)%Z))
    /\ ((1 <= _card_num_y lay)%Z ->
        (snd trim == 0 -> Z.of_nat (List.length H) = (_card_num_y lay + 1)%Z)
        /\ (0 < snd trim -> Z.of_nat (List.length H) = (2 * _card_num_y lay)%Z)).
Proof.
  intros E. destruct (@generate_cut_line_ok _ _ _ _ E) as (_ & _ & _ & Hset).
  eexists. eexists. split; [exact Hset|].
  split; [apply vertical_cutlines_shape|].
  split; [apply horizontal_cutlines_shape|].
  split; intros Hn; split; intros Ht.
  - rewrite vertical_cutlines_length, (proj2 (truthy_false_iff _) Ht). lia.
  - rewrite vertical_cutlines_length, (truthy_pos Ht). lia.
  - rewrite horizontal_cutlines_length, (proj2 (truthy_false_iff _) Ht). lia.
  - rewrite horizontal_cutlines_length, (truthy_pos Ht). lia.
Qed.

Lemma C4_cut_line_counts_witness :
  exists (lay : Layout) (V H : list CutLine),
    _generate_cut_line a4_units (600, 900)%Z (0, 0) = Ok lay
    /\ _cutline_set lay = V ++ H
    /\ Z.of_nat (List.length V) = 4%Z /\ Z.of_nat (List.length H) = 4%Z.
Proof.
  edestruct (@C4_cut_line_counts a4_units (600, 900)%Z (0, 0))
    as (V & H & Hset & _ & _ & Hx & Hy); [reflexivity|].
  cbn in Hx, Hy.
  eexists. exists V, H. split; [reflexivity|].
  split; [exact Hset|]. split.
  - apply Hx; [lia | reflexivity].
  - apply Hy; [lia | reflexivity].
Defined.

Lemma vertical_cuts_trim (extent len trim margin : Q) (n first : nat) (prev : Q) :
  Py.truthy trim = true ->
  prev == margin + inject_Z (Z.of_nat first) * len ->
  Forall2 cutline_eq
    (vertical_cuts n prev len trim extent)
    (inset_pairs (fun x => mkCutLine x 0 x extent) margin len trim first n).
Proof.
  intros Ht. revert first prev.
  induction n as [|n IH]; intros first prev Hp; [constructor|].
  cbn [vertical_cuts]. rewrite Ht.
  unfold inset_pairs. cbn [seq flat_map app].
  constructor; [|constructor].
  - unfold cutline_eq; cbn. rewrite Hp. repeat split; reflexivity.
  - unfold cutline_eq; cbn. rewrite Hp. repeat split; reflexivity.
  - apply IH. rewrite Hp, Nat2Z.inj_succ. unfold Z.succ.
    rewrite inject_Z_plus. change (inject_Z 1) with 1. ring.
Qed.

Lemma Forall2_map_both {A B : Type} (R : A -> A -> Prop) (S : B -> B -> Prop)
    (f : A -> B) (xs ys : list A) :
  (forall a a', R a a' -> S (f a) (f a')) ->
  Forall2 R xs ys -> Forall2 S (map f xs) (map f ys).
Proof.
  intros Hf H. induction H; cbn; constructor; auto.
Qed.

Lemma inset_pairs_transpose (extent margin len trim : Q) (first n : nat) :
  map transpose (inset_pairs (fun x => mkCutLine x 0 x extent) margin len trim first n)
  = inset_pairs (fun y => mkCutLine 0 y extent y) margin len trim first n.
Proof.
  unfold inset_pairs. revert first.
  induction n as [|n IH]; intros first; [reflexivity|].
  cbn [seq flat_map]. rewrite map_app, IH. reflexivity.
Qed.

Lemma vertical_cutlines_trim (self : BaseGenerator) (n : Z) (cm len trim : Q) :
  Py.truthy trim = true ->
  Forall2 cutline_eq (vertical_cutlines self n cm len trim)
    (inset_pairs (vline self) cm len trim 0 (Z.to_nat n)).
Proof.
  intros Ht. unfold vertical_cutlines. rewrite Ht. cbn [negb app].
  apply vertical_cuts_trim; [exact Ht|]. cbn. ring.
Qed.

Lemma horizontal_cutlines_trim (self : BaseGenerator) (n : Z) (cm len trim : Q) :
  Py.truthy trim = true ->
  Forall2 cutline_eq (horizontal_cutlines self n cm len trim)
    (inset_pairs (hline self) cm len trim 0 (Z.to_nat n)).
Proof.
  intros Ht. unfold horizontal_cutlines. rewrite Ht. cbn [negb app].
  rewrite horizontal_cuts_transpose.
  change (inset_pairs (hline self) cm len trim 0 (Z.to_nat n))
    with (inset_pairs (fun y => mkCutLine 0 y (page_width self) y)
            cm len trim 0 (Z.to_nat n)).
  rewrite <- inset_pairs_transpose.
  apply Forall2_map_both with (R := cutline_eq).
  - unfold cutline_eq, transpose. cbn. tauto.
  - apply vertical_cuts_trim; [exact Ht|]. cbn. ring.
Qed.

(** With a positive length and a positive trim offset that is none of
    [len], [2 * len], ..., [n * len], no inset position is an outer boundary
    [margin] or [margin + n * len]. *)
Lemma inset_positions_off_boundary (margin len trim : Q) (n : Z) (k : nat) :
  0 < len -> 0 < trim ->
  (forall j : Z, (1 <= j <= n)%Z -> ~ trim == inject_Z j * len) ->
  (k < Z.to_nat n)%nat ->
  let prev := margin + inject_Z (Z.of_nat k) * len in
  ~ prev + trim == margin
  /\ ~ prev + trim == margin + inject_Z n * len
  /\ ~ prev + len - trim == margin
  /\ ~ prev + len - trim == margin + inject_Z n * len.
Proof.
  intros Hl Ht Hj Hk prev. subst prev.
  assert (Hk0 : 0 <= inject_Z (Z.of_nat k) * len).
  { apply Qmult_le_0_compat; [|lra].
    change 0 with (inject_Z 0). rewrite <- Zle_Qle. lia. }
  assert (Hk1 : 0 <= (inject_Z n - inject_Z (Z.of_nat k) - 1) * len).
  { apply Qmult_le_0_compat; [|lra].
    setoid_replace (inject_Z n - inject_Z (Z.of_nat k) - 1)
      with (inject_Z (n + - Z.of_nat k + - 1))
      by (rewrite !inject_Z_plus, !inject_Z_opp; reflexivity).
    change 0 with (inject_Z 0). rewrite <- Zle_Qle. lia. }
  setoid_replace ((inject_Z n - inject_Z (Z.of_nat k) - 1) * len)
    with (inject_Z n * len - inject_Z (Z.of_nat k) * len - len) in Hk1 by ring.
  pose proof (Hj (n + - Z.of_nat k)%Z ltac:(lia)) as J1.
  pose proof (Hj (Z.of_nat k + 1)%Z ltac:(lia)) as J2.
  rewrite !inject_Z_plus, inject_Z_opp in J1.
  rewrite inject_Z_plus in J2. change (inject_Z 1) with 1 in J2.
  repeat split; intros E.
  - set (a := inject_Z (Z.of_nat k) * len) in *. clearbody a. lra.
  - apply J1. rewrite <- (Qplus_inj_l _ _ (margin + inject_Z (Z.of_nat k) * len)).
    rewrite (Qplus_comm _ trim).
    setoid_replace (trim + (margin + inject_Z (Z.of_nat k) * len))
      with (margin + inject_Z (Z.of_nat k) * len + trim) by ring.
    rewrite E. ring.
  - apply J2.
    setoid_replace trim
      with (margin + inject_Z (Z.of_nat k) * len + len
            - (margin + inject_Z (Z.of_nat k) * len + len - trim)) by ring.
    rewrite E. ring.
  - set (a := inject_Z (Z.of_nat k) * len) in *.
    set (b := inject_Z n * len) in *. clearbody a b. lra.
Qed.

Lemma Forall2_transfer {A : Type} (R : A -> A -> Prop) (P P' : A -> Prop)
    (xs ys : list A) :
  (forall a b, R a b -> P' b -> P a) ->
  Forall2 R xs ys -> Forall P' ys -> Forall P xs.
Proof.
  intros Hr H. induction H; intros F; constructor;
    inversion F; subst; eauto.
Qed.

Lemma inset_pairs_off_boundary (line : Q -> CutLine) (pos : CutLine -> Q)
    (margin len trim : Q) (n : Z) :
  (forall x, pos (line x) = x) ->
  0 < len -> 0 < trim ->
  (forall j : Z, (1 <= j <= n)%Z -> ~ trim == inject_Z j * len) ->
  Forall (fun l => ~ pos l == margin /\ ~ pos l == margin + inject_Z n * len)
    (inset_pairs line margin len trim 0 (Z.to_nat n)).
Proof.
  intros Hpos Hl Ht Hj. apply Forall_forall. intros l Hin.
  unfold inset_pairs in Hin. apply in_flat_map in Hin.
  destruct Hin as (k & Hk & Hin). apply in_seq in Hk.
  assert (Hk' : (k < Z.to_nat n)%nat) by lia.
  destruct (inset_positions_off_boundary margin Hl Ht Hj Hk') as (A & B & C & D).
  cbn in Hin. destruct Hin as [<-|[<-|[]]]; rewrite Hpos; split; assumption.
Qed.

(** In trim mode the loops append the pairs of [column_pairs] and nothing
    else. *)
Lemma vertical_cuts_pairs (n : nat) (prev len trim extent : Q) :
  Py.truthy trim = true ->
  vertical_cuts n prev len trim extent
  = column_pairs (fun x => mkCutLine x 0 x extent) prev len trim n.
Proof.
  intros Ht. revert prev. induction n as [|n IH]; intros prev; [reflexivity|].
  cbn [vertical_cuts column_pairs]. rewrite Ht, IH. reflexivity.
Qed.

Lemma horizontal_cuts_pairs (n : nat) (prev len trim extent : Q) :
  Py.truthy trim = true ->
  horizontal_cuts n prev len trim extent
  = column_pairs (fun y => mkCutLine 0 y extent y) prev len trim n.
Proof.
  intros Ht. revert prev. induction n as [|n IH]; intros prev; [reflexivity|].
  cbn [horizontal_cuts column_pairs]. rewrite Ht, IH. reflexivity.
Qed.

Lemma vertical_cutlines_pairs (self : BaseGenerator) (n : Z) (cm len trim : Q) :
  Py.truthy trim = true ->
  vertical_cutlines self n cm len trim
  = column_pairs (vline self) cm len trim (Z.to_nat n).
Proof.
  intros Ht. unfold vertical_cutlines. rewrite Ht. cbn [negb app].
  apply vertical_cuts_pairs, Ht.
Qed.

Lemma horizontal_cutlines_pairs (self : BaseGenerator) (n : Z) (cm len trim : Q) :
  Py.truthy trim = true ->
  horizontal_cutlines self n cm len trim
  = column_pairs (hline self) cm len trim (Z.to_nat n).
Proof.
  intros Ht. unfold horizontal_cutlines. rewrite Ht. cbn [negb app].
  apply horizontal_cuts_pairs, Ht.
Qed.

(** C5, with a horizontal trim offset equal to the image width (600 units
    on the 2100 x 2970 page): the right-hand line of the first column sits
    on the left outer boundary [cutMarginX], and the left-hand line of the
    last column on the right outer boundary. *)
Lemma C5_counterexample :
  exists (lay : Layout) (V H : list CutLine),
    _generate_cut_line a4_units (600, 900)%Z (600, 10) = Ok lay
    /\ _card_num_x lay = 3%Z
    /\ _cutline_set lay = V ++ H
    /\ Forall (is_vline a4_units) V /\ Forall (is_hline a4_units) H
    /\ (exists l, In l V /\ x0 l == _cut_margin_x lay)
    /\ (exists l, In l V /\ x0 l == _cut_margin_x lay + 3 * 600).
Proof.
  edestruct (@generate_cut_line_ok a4_units (600, 900)%Z (600, 10))
    as (_ & _ & _ & Hset); [reflexivity|].
  eexists. eexists. eexists.
  split; [reflexivity|]. split; [reflexivity|].
  split; [exact Hset|].
  split; [apply vertical_cutlines_shape|].
  split; [apply horizontal_cutlines_shape|].
  split.
  - eexists. split; [right; left; reflexivity|]. reflexivity.
  - eexists. split; [do 4 right; left; reflexivity|]. reflexivity.
Qed.

(** C5 (amended): in a successful layout with a positive horizontal trim
    offset the vertical lines are exactly, column by column for
    [cardsPerRow] columns, with [prev] starting at [cutMarginX] and advanced
    by [imageWidth] after each column, the full-height lines at
    [prev + trimOffset.x] and at [(prev + imageWidth) - trimOffset.x], and
    no other line.  On exactly representable lengths these are the lines of
    [prev = cutMarginX + k * imageWidth], and, for a positive image width,
    none of them lies on the outer boundaries [cutMarginX] and
    [cutMarginX + cardsPerRow * imageWidth] unless the trim offset is
    [j * imageWidth] for some [j] from 1 to [cardsPerRow].  Symmetrically
    for the horizontal lines. *)
Theorem C5_trim_mode_cut_lines
    (self : BaseGenerator) (img : Z * Z) (trim : Q * Q) (lay : Layout) :
  _generate_cut_line self img trim = Ok lay ->
  exists V H : list CutLine,
    _cutline_set lay = V ++ H
    /\ Forall (is_vline self) V /\ Forall (is_hline self) H
    /\ (0 < fst trim ->
        V = column_pairs (vline self) (_cut_margin_x lay)
              (image_width_in self img) (fst trim)
              (Z.to_nat (_card_num_x lay))
        /\ (exact_units self img -> exact_length (fst trim) ->
            Forall2 cutline_eq V
              (inset_pairs (vline self) (_cut_margin_x lay)
                 (image_width_in self img) (fst trim) 0
                 (Z.to_nat (_card_num_x lay)))
            /\ (0 < image_width_in self img ->
                (forall j : Z,
                    (1 <= j <= _card_num_x lay)%Z ->
                    ~ fst trim == inject_Z j * image_width_in self img) ->
                Forall (fun l =>
                          ~ x0 l == _cut_margin_x lay
                          /\ ~ x0 l == _cut_margin_x lay
                                       + inject_Z (_card_num_x lay)
                                         * image_width_in self img) V)))
    /\ (0 < snd trim ->
        H = column_pairs (hline self) (_cut_margin_y lay)
              (image_height_in self img) (snd trim)
              (Z.to_nat (_card_num_y lay))
        /\ (exact_units self img -> exact_length (snd trim) ->
            Forall2 cutline_eq H
              (inset_pairs (hline self) (_cut_margin_y lay)
                 (image_height_in self img) (snd trim) 0
                 (Z.to_nat (_card_num_y lay)))
            /\ (0 < image_height_in self img ->
                (forall j : Z,
                    (1 <= j <= _card_num_y lay)%Z ->
                    ~ snd trim == inject_Z j * image_height_in self img) ->
                Forall (fun l =>
                          ~ y0 l == _cut_margin_y lay
                          /\ ~ y0 l == _cut_margin_y lay
                                       + inject_Z (_card_num_y lay)
                                         * image_height_in self img) H))).
Proof.
  intros E. destruct (@generate_cut_line_ok _ _ _ _ E) as (_ & _ & _ & Hset).
  eexists. eexists. split; [exact Hset|].
  split; [apply vertical_cutlines_shape|].
  split; [apply horizontal_cutlines_shape|].
  split; intros Ht.
  - pose proof (@vertical_cutlines_trim self (_card_num_x lay)
                  (_cut_margin_x lay) (image_width_in self img) _
                  (truthy_pos Ht)) as F.
    split; [apply vertical_cutlines_pairs, truthy_pos, Ht|].
    intros _ _. split; [exact F|]. intros Hl Hj.
    eapply Forall2_transfer; [|exact F|].
    2: { apply (@inset_pairs_off_boundary (vline self) x0);
           [reflexivity|exact Hl|exact Ht|exact Hj]. }
    cbn beta. intros a b (Hx & _) (A & B). rewrite Hx. split; assumption.
  - pose proof (@horizontal_cutlines_trim self (_card_num_y lay)
                  (_cut_margin_y lay) (image_height_in self img) _
                  (truthy_pos Ht)) as F.
    split; [apply horizontal_cutlines_pairs, truthy_pos, Ht|].
    intros _ _. split; [exact F|]. intros Hl Hj.
    eapply Forall2_transfer; [|exact F|].
    2: { apply (@inset_pairs_off_boundary (hline self) y0);
           [reflexivity|exact Hl|exact Ht|exact Hj]. }
    cbn beta. intros a b (_ & Hy & _) (A & B). rewrite Hy. split; assumption.
Qed.

Lemma exact_length_10 : exact_length 10.
Proof. apply (@exact_length_of_Z 10), small_Z. reflexivity. Qed.

Lemma C5_trim_mode_cut_lines_witness :
  exists (lay : Layout) (V H : list CutLine),
    _generate_cut_line a4_units (600, 900)%Z (10, 10) = Ok lay
    /\ _cutline_set lay = V ++ H
    /\ List.length V = 6%nat
    /\ Forall (fun l =>
                 ~ x0 l == _cut_margin_x lay
                 /\ ~ x0 l == _cut_margin_x lay
                              + inject_Z (_card_num_x lay)
                                * image_width_in a4_units (600, 900)%Z) V.
Proof.
  edestruct (@C5_trim_mode_cut_lines a4_units (600, 900)%Z (10, 10))
    as (V & H & Hset & _ & _ & Hx & _); [reflexivity|].
  destruct Hx as (EV & Hex); [reflexivity|].
  destruct (Hex a4_exact_units exact_length_10) as (F & Hin).
  eexists. exists V, H. split; [reflexivity|].
  split; [exact Hset|]. split.
  - rewrite (Forall2_length F). reflexivity.
  - apply Hin; [reflexivity|].
    cbn [fst]. intros j Hj E0.
    assert (Ej : (j = 1 \/ j = 2 \/ j = 3)%Z) by (cbn in Hj; lia).
    destruct Ej as [ -> | [ -> | -> ] ]; discriminate E0.
Defined.

(** ** The image loop *)

Unset Implicit Arguments.

Section LoopFacts.

Variable Image : Type.
Variable self : BaseGenerator.
Variable lay : Layout.
Variable rtl : bool.
Variables image_width image_height : Q.

Local Abbreviation Event := (Event Image).
Local Abbreviation draw := (draw_call self lay rtl image_width image_height).
Local Abbreviation calls := (loop_calls self lay rtl image_width image_height).
Local Abbreviation pages_from :=
  (loop_pages self lay rtl image_width image_height).
Local Abbreviation draws_from :=
  (loop_draws self lay rtl image_width image_height).

Lemma loop_body_run (cfg : CutlineConfig) (cnt : Z * Z) (pil_image : Image) :
  loop_body self lay cfg rtl image_width image_height cnt pil_image
  = (body_calls self lay rtl image_width image_height cfg cnt pil_image,
     Ok (next_cnt lay cnt)).
Proof.
  destruct cnt as [x_cnt y_cnt].
  unfold loop_body, body_calls, next_cnt, page_full, wrap, fresh, cut_if,
    draw_call, when, _initialize_page, _draw_cutlines, _draw_image,
    _render_page, call, bind, ret.
  cbn [fst snd].
  destruct ((x_cnt =? 0)%Z && (y_cnt =? 0)%Z);
    destruct (layer cfg =? "bottom")%string;
    destruct (x_cnt + 1 >=? _card_num_x lay)%Z; cbn [fst snd];
    destruct (layer cfg =? "top")%string;
    try (destruct (y_cnt + 1 >=? _card_num_y lay)%Z);
    try (destruct (y_cnt >=? _card_num_y lay)%Z);
    reflexivity.
Qed.

Lemma for_in_run (cfg : CutlineConfig) (images : list Image) (cnt : Z * Z) :
  for_in images cnt (loop_body self lay cfg rtl image_width image_height)
  = (calls cfg cnt images, Ok (loop_cnt lay cnt images)).
Proof.
  revert cnt. induction images as [|pil_image rest IH]; intros cnt.
  - reflexivity.
  - cbn [for_in loop_calls loop_cnt]. rewrite loop_body_run.
    unfold bind. rewrite IH. reflexivity.
Qed.

Lemma loop_cnt_app (cnt : Z * Z) (pre post : list Image) :
  loop_cnt lay cnt (pre ++ post) = loop_cnt lay (loop_cnt lay cnt pre) post.
Proof.
  revert cnt. induction pre as [|i pre IH]; intros cnt; [reflexivity|].
  cbn. apply IH.
Qed.

Lemma loop_calls_app (cfg : CutlineConfig) (cnt : Z * Z) (pre post : list Image) :
  calls cfg cnt (pre ++ post)
  = calls cfg cnt pre ++ calls cfg (loop_cnt lay cnt pre) post.
Proof.
  revert cnt. induction pre as [|i pre IH]; intros cnt; [reflexivity|].
  cbn [app loop_calls loop_cnt]. rewrite IH, app_assoc. reflexivity.
Qed.

Lemma wrap_nonneg (cnt : Z * Z) : nonneg cnt -> nonneg (wrap lay cnt).
Proof.
  unfold nonneg, wrap. intros [Hx Hy].
  destruct (fst cnt + 1 >=? _card_num_x lay)%Z; cbn; lia.
Qed.

Lemma wrap_not_fresh (cnt : Z * Z) : nonneg cnt -> fresh (wrap lay cnt) = false.
Proof.
  unfold nonneg, wrap, fresh. intros [Hx Hy].
  destruct (fst cnt + 1 >=? _card_num_x lay)%Z; cbn [fst snd];
    apply andb_false_iff; [right|left]; lia.
Qed.

Lemma open_prefix_snoc (cfg : CutlineConfig) (acc : list Event) (d : Event) :
  open_prefix cfg (acc ++ [d])
  = InitializePage :: cut_if cfg "bottom" ++ acc ++ [d].
Proof. destruct acc; reflexivity. Qed.

Lemma open_prefix_step (cfg : CutlineConfig) (acc : list Event) (cnt : Z * Z)
    (d : Event) (rest : list Event) :
  fresh cnt = is_nil acc ->
  open_prefix cfg acc
  ++ (if fresh cnt then InitializePage :: cut_if cfg "bottom" else [])
  ++ [d] ++ rest
  = open_prefix cfg (acc ++ [d]) ++ rest.
Proof.
  intros F. rewrite open_prefix_snoc, F.
  destruct acc as [|a acc]; cbn [is_nil open_prefix app];
    repeat (rewrite <- ?app_assoc; cbn [app]); reflexivity.
Qed.

(** The loop and the calls after it produce whole pages only. *)
Lemma loop_paged (cfg : CutlineConfig) (images : list Image) :
  forall (cnt : Z * Z) (acc : list Event),
    nonneg cnt -> fresh cnt = is_nil acc ->
    open_prefix cfg acc ++ calls cfg cnt images
    ++ final_calls cfg (loop_cnt lay cnt images)
    = List.concat (map (page_block cfg) (pages_from cnt acc images)).
Proof.
  induction images as [|pil_image rest IH]; intros cnt acc Hn F.
  - cbn [loop_calls loop_cnt loop_pages app]. unfold final_calls.
    rewrite F. destruct acc as [|a acc]; cbn.
    + reflexivity.
    + unfold page_block. rewrite app_nil_r.
      cbn. rewrite <- !app_assoc. reflexivity.
  - cbn [loop_calls loop_cnt loop_pages]. unfold body_calls.
    rewrite <- !app_assoc.
    rewrite (open_prefix_step cfg acc cnt _ _ F).
    unfold next_cnt. destruct (page_full lay cnt) eqn:Pf.
    + cbn [map List.concat]. rewrite <- (IH (0, 0)%Z []).
      * rewrite open_prefix_snoc. unfold page_block.
        cbn. rewrite <- !app_assoc. reflexivity.
      * unfold nonneg; cbn; lia.
      * reflexivity.
    + cbn [app]. rewrite <- (IH (wrap lay cnt) (acc ++ [draw cnt pil_image])).
      * reflexivity.
      * apply wrap_nonneg, Hn.
      * rewrite wrap_not_fresh by exact Hn. destruct acc; reflexivity.
Qed.

Lemma loop_pages_concat (images : list Image) :
  forall (cnt : Z * Z) (acc : list Event),
    List.concat (pages_from cnt acc images) = acc ++ draws_from cnt images.
Proof.
  induction images as [|pil_image rest IH]; intros cnt acc.
  - cbn. destruct acc; cbn; rewrite ?app_nil_r; reflexivity.
  - cbn [loop_pages loop_draws]. unfold next_cnt.
    destruct (page_full lay cnt).
    + cbn [List.concat]. rewrite IH. cbn. rewrite <- app_assoc. reflexivity.
    + rewrite IH, <- app_assoc. reflexivity.
Qed.

Lemma loop_pages_nonempty (images : list Image) :
  forall (cnt : Z * Z) (acc : list Event),
    Forall (fun page => page <> []) (pages_from cnt acc images).
Proof.
  induction images as [|pil_image rest IH]; intros cnt acc.
  - cbn. destruct acc; repeat constructor. discriminate.
  - cbn [loop_pages]. destruct (page_full lay cnt).
    + constructor; [|apply IH]. destruct acc; discriminate.
    + apply IH.
Qed.

End LoopFacts.

Section Run.

Variable Image : Type.

Local Abbreviation Event := (Event Image).

Lemma layout_ok_truediv (self : BaseGenerator) (img : Z * Z) (trim : Q * Q)
    (lay : Layout) :
  _generate_cut_line self img trim = Ok lay ->
  Py.truediv (inject_Z (fst img)) (image_dpi self) = Ok (image_width_in self img)
  /\ Py.truediv (inject_Z (snd img)) (image_dpi self)
     = Ok (image_height_in self img).
Proof.
  unfold _generate_cut_line, Py.truediv, image_width_in, image_height_in.
  destruct (Qeq_bool (image_dpi self) 0); [discriminate|].
  split; reflexivity.
Qed.

(** A run of [generate] with a successful layout: the calls of the loop,
    then those after the loop, and no error. *)
Lemma generate_run (self : BaseGenerator) (cat : ImageCatalog Image)
    (cfg : CutlineConfig) (rtl : bool) (lay : Layout) :
  _generate_cut_line self (image_size cat)
    (trim_offset_x cfg, trim_offset_y cfg) = Ok lay ->
  generate self cat cfg rtl
  = (loop_calls self lay rtl (image_width_in self (image_size cat))
       (image_height_in self (image_size cat)) cfg (0, 0)%Z (image_set cat)
     ++ final_calls cfg (loop_cnt lay (0, 0)%Z (image_set cat)),
     Ok tt).
Proof.
  intros E. destruct (layout_ok_truediv _ _ _ _ E) as (Ew & Eh).
  unfold generate. rewrite E, Ew, Eh. unfold lift. cbn [bind app].
  rewrite for_in_run. cbn [bind].
  destruct (loop_cnt lay (0, 0)%Z (image_set cat)) as [x_cnt y_cnt].
  unfold final_calls, fresh, when, cut_if, _draw_cutlines, _render_page,
    call, bind, ret. cbn [fst snd].
  destruct (x_cnt =? 0)%Z; destruct (y_cnt =? 0)%Z; cbn;
    try destruct (layer cfg =? "top")%string; cbn;
    rewrite ?app_nil_r; reflexivity.
Qed.

End Run.

(** ** Calls *)

Section CallFacts.

Variable Image : Type.

Local Abbreviation Event := (Event Image).

Lemma count_calls_app (p : Event -> bool) (t t' : list Event) :
  count_calls p (t ++ t') = (count_calls p t + count_calls p t')%nat.
Proof.
  unfold count_calls. rewrite filter_app, length_app. reflexivity.
Qed.

Lemma filter_cut_if (p : Event -> bool) (cfg : CutlineConfig) (name : string) :
  (forall c, p (DrawCutlines c) = false) ->
  filter p (cut_if cfg name) = [].
Proof.
  intros H. unfold cut_if. destruct (layer cfg =? name)%string; cbn;
    rewrite ?H; reflexivity.
Qed.

Lemma only_draws_filter (p : Event -> bool) (page : list Event) :
  (forall e, is_draw e = true -> p e = false) ->
  only_draws page -> filter p page = [].
Proof.
  intros Hp H. induction H as [|e page He _ IH]; [reflexivity|].
  cbn. rewrite (Hp e He). exact IH.
Qed.

End CallFacts.

(** ** The page grid *)

Section GridFacts.

Variable lay : Layout.

Local Abbreviation c := (_card_num_x lay).
Local Abbreviation r := (_card_num_y lay).

Lemma in_grid_nonneg (cnt : Z * Z) : in_grid lay cnt -> nonneg cnt.
Proof. unfold in_grid, nonneg. lia. Qed.

Lemma in_grid_origin : (1 <= c)%Z -> (1 <= r)%Z -> in_grid lay (0, 0)%Z.
Proof. unfold in_grid. cbn. lia. Qed.

Lemma placed_bounds (cnt : Z * Z) :
  in_grid lay cnt -> (0 <= placed lay cnt < c * r)%Z.
Proof. unfold in_grid, placed. nia. Qed.

Lemma page_full_iff (cnt : Z * Z) :
  in_grid lay cnt -> (page_full lay cnt = true <-> placed lay cnt + 1 = c * r)%Z.
Proof.
  unfold in_grid, placed, page_full, wrap. intros H.
  rewrite !Z.geb_leb.
  destruct (Z.leb_spec c (fst cnt + 1)); cbn [snd];
    rewrite Z.leb_le; split; intros; nia.
Qed.

Lemma wrap_in_grid (cnt : Z * Z) :
  in_grid lay cnt -> page_full lay cnt = false ->
  in_grid lay (wrap lay cnt) /\ placed lay (wrap lay cnt) = (placed lay cnt + 1)%Z.
Proof.
  unfold in_grid, placed, page_full, wrap. intros H.
  rewrite !Z.geb_leb.
  destruct (Z.leb_spec c (fst cnt + 1)); cbn [fst snd];
    rewrite Z.leb_gt; intros; split; nia.
Qed.

Lemma next_cnt_in_grid (cnt : Z * Z) :
  (1 <= c)%Z -> (1 <= r)%Z -> in_grid lay cnt -> in_grid lay (next_cnt lay cnt).
Proof.
  intros Hc Hr H. unfold next_cnt.
  destruct (page_full lay cnt) eqn:Pf.
  - apply in_grid_origin; assumption.
  - apply wrap_in_grid; assumption.
Qed.

Lemma loop_cnt_in_grid {Image : Type} (images : list Image) (cnt : Z * Z) :
  (1 <= c)%Z -> (1 <= r)%Z -> in_grid lay cnt -> in_grid lay (loop_cnt lay cnt images).
Proof.
  intros Hc Hr. revert cnt.
  induction images as [|i rest IH]; intros cnt H; [exact H|].
  cbn. apply IH, next_cnt_in_grid; assumption.
Qed.

(** The counters are back at the origin exactly when the page was
    complete. *)
Lemma next_cnt_fresh (cnt : Z * Z) :
  nonneg cnt -> fresh (next_cnt lay cnt) = page_full lay cnt.
Proof.
  intros H. unfold next_cnt. destruct (page_full lay cnt).
  - reflexivity.
  - apply wrap_not_fresh, H.
Qed.

Lemma next_cnt_nonneg (cnt : Z * Z) : nonneg cnt -> nonneg (next_cnt lay cnt).
Proof.
  intros H. unfold next_cnt. destruct (page_full lay cnt).
  - unfold nonneg; cbn; lia.
  - apply wrap_nonneg, H.
Qed.

Lemma loop_cnt_nonneg {Image : Type} (images : list Image) (cnt : Z * Z) :
  nonneg cnt -> nonneg (loop_cnt lay cnt images).
Proof.
  revert cnt. induction images as [|i rest IH]; intros cnt H; [exact H|].
  cbn. apply IH, next_cnt_nonneg, H.
Qed.

End GridFacts.

(** ** Page sizes *)

Lemma page_sizes_small (cap total : nat) :
  (total < cap)%nat ->
  page_sizes cap total = if (total =? 0)%nat then [] else [total].
Proof.
  intros H. unfold page_sizes.
  rewrite Nat.div_small, Nat.mod_small by exact H. reflexivity.
Qed.

Lemma page_sizes_add (cap total : nat) :
  cap <> 0%nat -> page_sizes cap (cap + total) = cap :: page_sizes cap total.
Proof.
  intros H. unfold page_sizes.
  assert (Ed : ((cap + total) / cap = S (total / cap))%nat).
  { symmetry. apply (Nat.div_unique _ _ _ (total mod cap)).
    - apply Nat.mod_upper_bound, H.
    - pose proof (Nat.div_mod_eq total cap). lia. }
  assert (Em : ((cap + total) mod cap = total mod cap)%nat).
  { symmetry. apply (Nat.mod_unique _ _ (S (total / cap))).
    - apply Nat.mod_upper_bound, H.
    - pose proof (Nat.div_mod_eq total cap). lia. }
  rewrite Ed, Em. reflexivity.
Qed.

Lemma page_sizes_length (cap total : nat) :
  cap <> 0%nat ->
  List.length (page_sizes cap total) = ((total + cap - 1) / cap)%nat.
Proof.
  intros H. unfold page_sizes. rewrite length_app, repeat_length.
  pose proof (Nat.div_mod_eq total cap) as E.
  pose proof (Nat.mod_upper_bound total cap H) as B.
  destruct (total mod cap =? 0)%nat eqn:Z0.
  - apply Nat.eqb_eq in Z0. cbn.
    apply (Nat.div_unique _ _ _ (cap - 1)); lia.
  - apply Nat.eqb_neq in Z0. cbn.
    apply (Nat.div_unique _ _ _ (total mod cap - 1)); lia.
Qed.

Section Composition.

Variable Image : Type.
Variable self : BaseGenerator.
Variable lay : Layout.
Variable rtl : bool.
Variables image_width image_height : Q.

Local Abbreviation Event := (Event Image).
Local Abbreviation pages_from :=
  (loop_pages self lay rtl image_width image_height).
Local Abbreviation draws_from :=
  (loop_draws self lay rtl image_width image_height).
Local Abbreviation calls_from :=
  (loop_calls self lay rtl image_width image_height).
Local Abbreviation c := (_card_num_x lay).
Local Abbreviation r := (_card_num_y lay).

(** With at least one card per row and per column, every page but the
    last holds [c * r] images. *)
Lemma loop_pages_sizes (images : list Image) :
  forall (cnt : Z * Z) (acc : list Event),
    in_grid lay cnt ->
    List.length acc = Z.to_nat (placed lay cnt) ->
    map (@List.length Event) (pages_from cnt acc images)
    = page_sizes (Z.to_nat (c * r)) (List.length acc + List.length images).
Proof.
  induction images as [|pil_image rest IH]; intros cnt acc G L.
  - pose proof (placed_bounds lay cnt G) as B.
    cbn [loop_pages List.length]. rewrite Nat.add_0_r.
    rewrite page_sizes_small by lia.
    destruct acc; reflexivity.
  - pose proof (placed_bounds lay cnt G) as B.
    cbn [loop_pages]. destruct (page_full lay cnt) eqn:Pf.
    + apply (page_full_iff lay cnt G) in Pf.
      cbn [map]. rewrite (IH (0, 0)%Z []).
      * rewrite length_app. cbn [List.length].
        replace (List.length acc + S (List.length rest))%nat
          with (Z.to_nat (c * r) + List.length rest)%nat by lia.
        rewrite page_sizes_add by lia.
        f_equal. lia.
      * unfold in_grid in *. cbn. nia.
      * reflexivity.
    + destruct (wrap_in_grid lay cnt G Pf) as (G' & P').
      rewrite (IH (wrap lay cnt)).
      * rewrite length_app. cbn [List.length]. f_equal. lia.
      * exact G'.
      * rewrite length_app, P'. cbn [List.length]. lia.
Qed.

Lemma loop_draws_images (images : list Image) :
  forall cnt : Z * Z, Forall2 draws_image (draws_from cnt images) images.
Proof.
  induction images as [|i rest IH]; intros cnt; cbn; constructor.
  - unfold draws_image, draw_call. do 3 eexists. reflexivity.
  - apply IH.
Qed.

Lemma filter_body_calls (p : Event -> bool) (cfg : CutlineConfig)
    (cnt : Z * Z) (i : Image) :
  (forall cfg', p (DrawCutlines cfg') = false) ->
  filter p (body_calls self lay rtl image_width image_height cfg cnt i)
  = (if fresh cnt then filter p [InitializePage] else [])
    ++ filter p [draw_call self lay rtl image_width image_height cnt i]
    ++ (if page_full lay cnt then filter p [RenderPage] else []).
Proof.
  intros Hc. unfold body_calls. rewrite !filter_app.
  f_equal; [|f_equal].
  - destruct (fresh cnt); [|reflexivity].
    change (InitializePage :: cut_if cfg "bottom")
      with ([InitializePage] ++ @cut_if Image cfg "bottom").
    rewrite filter_app, (filter_cut_if _ p cfg "bottom" Hc), app_nil_r.
    reflexivity.
  - destruct (page_full lay cnt); [|reflexivity].
    rewrite filter_app, (filter_cut_if _ p cfg "top" Hc). reflexivity.
Qed.

(** The image calls of the loop are those of [loop_draws]. *)
Lemma filter_draw_loop_calls (cfg : CutlineConfig) (images : list Image) :
  forall cnt : Z * Z,
    filter is_draw (calls_from cfg cnt images) = draws_from cnt images.
Proof.
  induction images as [|i rest IH]; intros cnt; [reflexivity|].
  cbn [loop_calls loop_draws]. rewrite filter_app, IH.
  rewrite filter_body_calls by reflexivity.
  destruct (fresh cnt), (page_full lay cnt); reflexivity.
Qed.

Lemma filter_draw_final_calls (cfg : CutlineConfig) (cnt : Z * Z) :
  filter is_draw (@final_calls Image cfg cnt) = [].
Proof.
  unfold final_calls. destruct (fresh cnt); [reflexivity|].
  rewrite filter_app, (filter_cut_if _ is_draw cfg "top") by reflexivity.
  reflexivity.
Qed.

(** Pages opened and pages closed, along the loop. *)
Lemma loop_calls_balance (cfg : CutlineConfig) (images : list Image) :
  forall cnt : Z * Z,
    nonneg cnt ->
    (count_calls is_init (calls_from cfg cnt images)
     + (if fresh cnt then 0 else 1)
     = count_calls is_render (calls_from cfg cnt images)
       + (if fresh (loop_cnt lay cnt images) then 0 else 1))%nat.
Proof.
  induction images as [|i rest IH]; intros cnt H.
  - cbn. reflexivity.
  - cbn [loop_calls loop_cnt]. rewrite !count_calls_app.
    pose proof (IH (next_cnt lay cnt) (next_cnt_nonneg lay cnt H)) as E.
    rewrite (next_cnt_fresh lay cnt H) in E.
    unfold count_calls at 1 3.
    rewrite !filter_body_calls by reflexivity.
    destruct (fresh cnt), (page_full lay cnt); cbn in *; lia.
Qed.

Lemma nth_loop_draws (images : list Image) :
  forall (cnt : Z * Z) (k : nat) (i : Image),
    nth_error images k = Some i ->
    nth_error (draws_from cnt images) k
    = Some (draw_call self lay rtl image_width image_height
              (loop_cnt lay cnt (firstn k images)) i).
Proof.
  induction images as [|j rest IH]; intros cnt k i E.
  - destruct k; discriminate E.
  - destruct k as [|k].
    + cbn in E. injection E as ->. reflexivity.
    + cbn in E. cbn. apply IH, E.
Qed.

End Composition.

(** ** [generate] as a sequence of pages *)

Section Sheets.

Variable Image : Type.

Local Abbreviation Event := (Event Image).

Lemma loop_pages_only_draws (self : BaseGenerator) (lay : Layout) (rtl : bool)
    (iw ih : Q) (images : list Image) :
  forall (cnt : Z * Z) (acc : list Event),
    only_draws acc ->
    Forall only_draws (loop_pages self lay rtl iw ih cnt acc images).
Proof.
  induction images as [|i rest IH]; intros cnt acc H.
  - cbn. destruct acc; [constructor|]. constructor; [exact H|constructor].
  - assert (H' : only_draws (acc ++ [draw_call self lay rtl iw ih cnt i])).
    { apply Forall_app. split; [exact H|]. repeat constructor. }
    cbn [loop_pages]. destruct (page_full lay cnt).
    + constructor; [exact H'|]. apply IH. constructor.
    + apply IH, H'.
Qed.

Lemma count_page_blocks (p : Event -> bool) (cfg : CutlineConfig)
    (pages : list (list Event)) :
  (forall cfg', p (DrawCutlines cfg') = false) ->
  (forall e, is_draw e = true -> p e = false) ->
  Forall only_draws pages ->
  count_calls p (List.concat (map (page_block cfg) pages))
  = (List.length pages
     * (count_calls p [InitializePage] + count_calls p [RenderPage]))%nat.
Proof.
  intros Hc Hd H. induction H as [|page pages Hpage _ IH]; [reflexivity|].
  cbn [map List.concat List.length]. rewrite count_calls_app, IH.
  unfold page_block.
  change (InitializePage :: cut_if cfg "bottom" ++ page
          ++ cut_if cfg "top" ++ [RenderPage])
    with ([InitializePage] ++ cut_if cfg "bottom" ++ page
          ++ cut_if cfg "top" ++ [@RenderPage Image]).
  rewrite !count_calls_app. unfold count_calls at 2 3 4.
  rewrite !filter_cut_if by exact Hc.
  rewrite (only_draws_filter Image p page Hd Hpage). cbn [List.length]. lia.
Qed.

Lemma filter_cut_plain_pages (pages : list (list Event)) :
  Forall only_draws pages ->
  filter is_cut
    (List.concat
       (map (fun page => [InitializePage] ++ page ++ [RenderPage]) pages))
  = [].
Proof.
  intros H. induction H as [|page pages Hpage _ IH]; [reflexivity|].
  cbn [map List.concat]. rewrite !filter_app, IH.
  rewrite (only_draws_filter Image is_cut page); [reflexivity| |exact Hpage].
  intros [] He; try discriminate He; reflexivity.
Qed.

(** A successful run is a sequence of whole pages. *)
Lemma generate_pages (self : BaseGenerator) (cat : ImageCatalog Image)
    (cfg : CutlineConfig) (rtl : bool) (lay : Layout) :
  _generate_cut_line self (image_size cat)
    (trim_offset_x cfg, trim_offset_y cfg) = Ok lay ->
  generate self cat cfg rtl
  = (List.concat
       (map (page_block cfg)
          (loop_pages self lay rtl (image_width_in self (image_size cat))
             (image_height_in self (image_size cat)) (0, 0)%Z []
             (image_set cat))),
     Ok tt).
Proof.
  intros E. rewrite (generate_run Image self cat cfg rtl lay E).
  f_equal.
  rewrite <- (loop_paged Image self lay rtl _ _ cfg (image_set cat)
                (0, 0)%Z []).
  - reflexivity.
  - unfold nonneg; cbn; lia.
  - reflexivity.
Qed.

Lemma fresh_iff (cnt : Z * Z) : fresh cnt = true <-> cnt = (0, 0)%Z.
Proof.
  destruct cnt as [x y]. unfold fresh. cbn [fst snd].
  rewrite andb_true_iff, !Z.eqb_eq. split.
  - intros [-> ->]. reflexivity.
  - intros E. injection E as -> ->. split; reflexivity.
Qed.

Lemma render_in_body_calls (self : BaseGenerator) (lay : Layout) (rtl : bool)
    (iw ih : Q) (cfg : CutlineConfig) (cnt : Z * Z) (i : Image) :
  In RenderPage (body_calls self lay rtl iw ih cfg cnt i)
  <-> page_full lay cnt = true.
Proof.
  unfold body_calls, cut_if, draw_call.
  destruct (fresh cnt), (page_full lay cnt),
    (layer cfg =? "bottom")%string, (layer cfg =? "top")%string;
    cbn; split; intros H; try reflexivity; try discriminate H;
    repeat (destruct H as [H|H]; try discriminate H); try contradiction;
    tauto.
Qed.

Lemma init_in_body_calls (self : BaseGenerator) (lay : Layout) (rtl : bool)
    (iw ih : Q) (cfg : CutlineConfig) (cnt : Z * Z) (i : Image) :
  In InitializePage (body_calls self lay rtl iw ih cfg cnt i)
  <-> fresh cnt = true.
Proof.
  unfold body_calls, cut_if, draw_call.
  destruct (fresh cnt), (page_full lay cnt),
    (layer cfg =? "bottom")%string, (layer cfg =? "top")%string;
    cbn; split; intros H; try reflexivity; try discriminate H;
    repeat (destruct H as [H|H]; try discriminate H); try contradiction;
    tauto.
Qed.

End Sheets.

(** ** The runs of [generate] *)

Section Runs.

Variable Image : Type.

Local Abbreviation Event := (Event Image).

(** C6: with a grid of [c >= 1] by [r >= 1] cards, a catalog of [N]
    images makes [generate] open and close exactly [ceil (N / (c * r))]
    pages, without error; every page but the last receives [c * r] images
    and the last one [N mod (c * r)], or [c * r] when that is zero; an
    empty catalog gives no call at all. *)
Theorem C6_page_count (self : BaseGenerator) (cat : ImageCatalog Image)
    (cfg : CutlineConfig) (rtl : bool) (lay : Layout) :
  _generate_cut_line self (image_size cat)
    (trim_offset_x cfg, trim_offset_y cfg) = Ok lay ->
  (1 <= _card_num_x lay)%Z -> (1 <= _card_num_y lay)%Z ->
  let cap := Z.to_nat (_card_num_x lay * _card_num_y lay) in
  let N := List.length (image_set cat) in
  exists pages : list (list Event),
    generate self cat cfg rtl
    = (List.concat (map (page_block cfg) pages), Ok tt)
    /\ Forall2 draws_image (List.concat pages) (image_set cat)
    /\ count_calls is_init (fst (generate self cat cfg rtl))
       = ((N + cap - 1) / cap)%nat
    /\ count_calls is_render (fst (generate self cat cfg rtl))
       = ((N + cap - 1) / cap)%nat
    /\ List.length pages = ((N + cap - 1) / cap)%nat
    /\ map (@List.length Event) pages
       = repeat cap (N / cap)
         ++ (if (N mod cap =? 0)%nat then [] else [(N mod cap)%nat])
    /\ (N = 0%nat -> generate self cat cfg rtl = ([], Ok tt)).
Proof.
  intros E Hc Hr cap N.
  pose proof (generate_pages Image self cat cfg rtl lay E) as G.
  set (iw := image_width_in self (image_size cat)) in *.
  set (ih := image_height_in self (image_size cat)) in *.
  set (pages := loop_pages self lay rtl iw ih (0, 0)%Z [] (image_set cat)) in *.
  assert (Hcap : cap <> 0%nat) by (unfold cap; nia).
  assert (Hsizes : map (@List.length Event) pages = page_sizes cap N).
  { unfold pages, cap, N.
    rewrite (loop_pages_sizes Image self lay rtl iw ih (image_set cat)
               (0, 0)%Z []).
    - reflexivity.
    - apply in_grid_origin; assumption.
    - reflexivity. }
  assert (Hlen : List.length pages = ((N + cap - 1) / cap)%nat).
  { rewrite <- (length_map (@List.length Event)), Hsizes.
    apply page_sizes_length, Hcap. }
  assert (Honly : Forall only_draws pages)
    by (apply loop_pages_only_draws; constructor).
  exists pages. rewrite G. cbn [fst].
  split; [reflexivity|]. split.
  { unfold pages. rewrite loop_pages_concat. apply loop_draws_images. }
  split.
  { rewrite count_page_blocks; [cbn; lia|reflexivity| |exact Honly].
    intros [] He; try discriminate He; reflexivity. }
  split.
  { rewrite count_page_blocks; [cbn; lia|reflexivity| |exact Honly].
    intros [] He; try discriminate He; reflexivity. }
  split; [exact Hlen|]. split; [exact Hsizes|].
  intros HN. unfold pages.
  destruct (image_set cat); [reflexivity|discriminate HN].
Qed.

(** C7: in a run with a successful layout, the [k]-th image of the
    catalog is drawn by the [k]-th image call; with [(x_cnt, y_cnt)] the
    counters the loop has reached after the [k] images before it, its
    horizontal position is
    [page_width - cut_margin_x - (x_cnt + 1) * image_width] when [rtl] is
    set and [cut_margin_x + x_cnt * image_width] otherwise, and its
    vertical position is [cut_margin_y + y_cnt * image_height] in both
    modes. *)
Theorem C7_draw_position (self : BaseGenerator) (cat : ImageCatalog Image)
    (cfg : CutlineConfig) (rtl : bool) (lay : Layout) (k : nat) (i : Image) :
  _generate_cut_line self (image_size cat)
    (trim_offset_x cfg, trim_offset_y cfg) = Ok lay ->
  nth_error (image_set cat) k = Some i ->
  let image_width := image_width_in self (image_size cat) in
  let image_height := image_height_in self (image_size cat) in
  exists (before : list Event) (x_cnt y_cnt : Z),
    for_in (firstn k (image_set cat)) (0, 0)%Z
      (loop_body self lay cfg rtl image_width image_height)
    = (before, Ok (x_cnt, y_cnt))
    /\ nth_error (filter is_draw (fst (generate self cat cfg rtl))) k
       = Some (DrawImage i
                 (if rtl then
                    page_width self - _cut_margin_x lay
                    - inject_Z (x_cnt + 1) * image_width
                  else _cut_margin_x lay + inject_Z x_cnt * image_width)
                 (_cut_margin_y lay + inject_Z y_cnt * image_height)
                 (image_width, image_height)).
Proof.
  intros E Hk iw ih.
  rewrite (generate_run Image self cat cfg rtl lay E). cbn [fst].
  fold iw ih.
  rewrite filter_app, filter_draw_loop_calls, filter_draw_final_calls,
    app_nil_r.
  rewrite (nth_loop_draws Image self lay rtl iw ih _ _ _ _ Hk).
  rewrite for_in_run.
  destruct (loop_cnt lay (0, 0)%Z (firstn k (image_set cat)))
    as [x_cnt y_cnt] eqn:Ec.
  do 3 eexists. split; [reflexivity|].
  unfold draw_call. cbn [fst snd]. reflexivity.
Qed.

(** C8: in a run with a successful layout the calls are a sequence of
    pages, each with at least one image call, the image calls being those
    of the catalog in order.  With layer ["bottom"] every page is
    [_initialize_page], then [_draw_cutlines] once, then its images, then
    [_render_page]; with layer ["top"] every page is [_initialize_page],
    then its images, then [_draw_cutlines] once, then [_render_page].
    The last, possibly partial, page is no exception, and every page that
    is started is finished. *)
Theorem C8_cut_lines_once_per_page (self : BaseGenerator)
    (cat : ImageCatalog Image) (cfg : CutlineConfig) (rtl : bool)
    (lay : Layout) :
  _generate_cut_line self (image_size cat)
    (trim_offset_x cfg, trim_offset_y cfg) = Ok lay ->
  exists pages : list (list Event),
    Forall (fun page => page <> []) pages
    /\ Forall2 draws_image (List.concat pages) (image_set cat)
    /\ (layer cfg = "bottom"%string ->
        generate self cat cfg rtl
        = (List.concat
             (map (fun page =>
                     [InitializePage; DrawCutlines cfg] ++ page
                     ++ [RenderPage]) pages),
           Ok tt))
    /\ (layer cfg = "top"%string ->
        generate self cat cfg rtl
        = (List.concat
             (map (fun page =>
                     [InitializePage] ++ page
                     ++ [DrawCutlines cfg; RenderPage]) pages),
           Ok tt)).
Proof.
  intros E. rewrite (generate_pages Image self cat cfg rtl lay E).
  exists (loop_pages self lay rtl (image_width_in self (image_size cat))
            (image_height_in self (image_size cat)) (0, 0)%Z []
            (image_set cat)).
  split; [apply loop_pages_nonempty|].
  split; [rewrite loop_pages_concat; apply loop_draws_images|].
  split; intros L; f_equal; f_equal; apply map_ext; intros page;
    unfold page_block, cut_if; rewrite L; reflexivity.
Qed.

Lemma in_cells_origin (lay : Layout) : in_cells lay (0, 0)%Z.
Proof. unfold in_cells. cbn [fst snd]. lia. Qed.

Lemma in_cells_nonneg (lay : Layout) (cnt : Z * Z) :
  in_cells lay cnt -> nonneg cnt.
Proof. unfold in_cells, nonneg. lia. Qed.

Lemma next_cnt_in_cells (lay : Layout) (cnt : Z * Z) :
  in_cells lay cnt -> in_cells lay (next_cnt lay cnt).
Proof.
  unfold in_cells, next_cnt, page_full, wrap. intros H.
  rewrite !Z.geb_leb.
  destruct (Z.leb_spec (_card_num_x lay) (fst cnt + 1)); cbn [fst snd];
    match goal with
    | |- context [(?a <=? ?b)%Z] => destruct (Z.leb_spec a b)
    end; cbn [fst snd]; lia.
Qed.

Lemma loop_cnt_in_cells (lay : Layout) (images : list Image) (cnt : Z * Z) :
  in_cells lay cnt -> in_cells lay (loop_cnt lay cnt images).
Proof.
  revert cnt. induction images as [|i rest IH]; intros cnt H; [exact H|].
  cbn. apply IH, next_cnt_in_cells, H.
Qed.

(** C9 (amended): in every run with a successful layout, at the start of
    every iteration of the image loop the counters satisfy
    [0 <= x_cnt < max(cardsPerRow, 1)] and
    [0 <= y_cnt < max(cardsPerCol, 1)], which are the bounds of the claim on
    each axis whose number of cards is at least one; they are [(0, 0)]
    exactly when every page started so far has been finished; the iteration
    starts a page exactly when they are [(0, 0)], and it leaves them at
    [(0, 0)] exactly when it finishes a page. *)
Theorem C9_cursor_invariant (self : BaseGenerator) (cat : ImageCatalog Image)
    (cfg : CutlineConfig) (rtl : bool) (lay : Layout)
    (pre post : list Image) (i : Image) :
  _generate_cut_line self (image_size cat)
    (trim_offset_x cfg, trim_offset_y cfg) = Ok lay ->
  image_set cat = pre ++ i :: post ->
  let body :=
    loop_body self lay cfg rtl (image_width_in self (image_size cat))
      (image_height_in self (image_size cat)) in
  exists (before during after : list Event) (x_cnt y_cnt : Z)
         (cnt' final : Z * Z),
    for_in pre (0, 0)%Z body = (before, Ok (x_cnt, y_cnt))
    /\ body (x_cnt, y_cnt) i = (during, Ok cnt')
    /\ for_in post cnt' body = (after, Ok final)
    /\ for_in (image_set cat) (0, 0)%Z body
       = (before ++ during ++ after, Ok final)
    /\ (0 <= x_cnt < Z.max 1 (_card_num_x lay))%Z
    /\ (0 <= y_cnt < Z.max 1 (_card_num_y lay))%Z
    /\ ((1 <= _card_num_x lay)%Z -> (0 <= x_cnt < _card_num_x lay)%Z)
    /\ ((1 <= _card_num_y lay)%Z -> (0 <= y_cnt < _card_num_y lay)%Z)
    /\ ((x_cnt, y_cnt) = (0, 0)%Z
        <-> count_calls is_init before = count_calls is_render before)
    /\ ((x_cnt, y_cnt) = (0, 0)%Z <-> In InitializePage during)
    /\ (cnt' = (0, 0)%Z <-> In RenderPage during).
Proof.
  intros _ Hsplit body. unfold body.
  rewrite Hsplit, !for_in_run.
  set (iw := image_width_in self (image_size cat)).
  set (ih := image_height_in self (image_size cat)).
  pose proof (loop_cnt_in_cells lay pre (0, 0)%Z (in_cells_origin lay)) as G.
  pose proof (loop_calls_balance Image self lay rtl iw ih cfg pre (0, 0)%Z)
    as B.
  rewrite loop_calls_app, loop_cnt_app. cbn [loop_calls loop_cnt].
  destruct (loop_cnt lay (0, 0)%Z pre) as [x_cnt y_cnt] eqn:Ec.
  exists (loop_calls self lay rtl iw ih cfg (0, 0)%Z pre),
    (body_calls self lay rtl iw ih cfg (x_cnt, y_cnt) i),
    (loop_calls self lay rtl iw ih cfg (next_cnt lay (x_cnt, y_cnt)) post),
    x_cnt, y_cnt, (next_cnt lay (x_cnt, y_cnt)),
    (loop_cnt lay (next_cnt lay (x_cnt, y_cnt)) post).
  split; [reflexivity|]. split; [apply loop_body_run|].
  split; [apply for_in_run|]. split; [reflexivity|].
  split; [apply G|]. split; [apply G|].
  split; [intros Hc; destruct G as (Gx & _); cbn [fst] in Gx; lia|].
  split; [intros Hr; destruct G as (_ & Gy); cbn [snd] in Gy; lia|].
  split; [|split].
  - rewrite <- fresh_iff.
    cbn [fresh fst snd Z.eqb andb] in B.
    specialize (B ltac:(unfold nonneg; cbn; lia)).
    destruct (fresh (x_cnt, y_cnt)); split; intros H;
      try reflexivity; try discriminate H; lia.
  - rewrite init_in_body_calls. symmetry. apply fresh_iff.
  - rewrite render_in_body_calls, <- fresh_iff.
    rewrite next_cnt_fresh by (apply in_cells_nonneg with (lay := lay), G).
    reflexivity.
Qed.

(** C10: with a layer that is neither ["top"] nor ["bottom"], a run with
    a successful layout ends without error; its calls are pages made of
    [_initialize_page], the image calls and [_render_page], with no call
    of [_draw_cutlines] anywhere, and the image calls, page by page, are
    those of the run with layer ["top"]. *)
Theorem C10_unknown_layer_draws_no_cut_lines (self : BaseGenerator)
    (cat : ImageCatalog Image) (cfg : CutlineConfig) (rtl : bool)
    (lay : Layout) :
  layer cfg <> "top"%string -> layer cfg <> "bottom"%string ->
  _generate_cut_line self (image_size cat)
    (trim_offset_x cfg, trim_offset_y cfg) = Ok lay ->
  exists pages : list (list Event),
    generate self cat cfg rtl
    = (List.concat
         (map (fun page => [InitializePage] ++ page ++ [RenderPage]) pages),
       Ok tt)
    /\ Forall (fun page => page <> []) pages
    /\ Forall2 draws_image (List.concat pages) (image_set cat)
    /\ filter is_cut (fst (generate self cat cfg rtl)) = []
    /\ generate self cat (with_layer "top" cfg) rtl
       = (List.concat
            (map (fun page =>
                    [InitializePage] ++ page
                    ++ [DrawCutlines (with_layer "top" cfg); RenderPage])
               pages),
          Ok tt).
Proof.
  intros Ht Hb E.
  assert (E' : _generate_cut_line self (image_size cat)
                 (trim_offset_x (with_layer "top" cfg),
                  trim_offset_y (with_layer "top" cfg)) = Ok lay)
    by exact E.
  rewrite (generate_pages Image self cat cfg rtl lay E).
  rewrite (generate_pages Image self cat (with_layer "top" cfg) rtl lay E').
  apply String.eqb_neq in Ht, Hb.
  assert (Hblock : forall page : list Event,
             page_block cfg page = [InitializePage] ++ page ++ [RenderPage]).
  { intros page. unfold page_block, cut_if. rewrite Ht, Hb.
    reflexivity. }
  exists (loop_pages self lay rtl (image_width_in self (image_size cat))
            (image_height_in self (image_size cat)) (0, 0)%Z []
            (image_set cat)).
  rewrite (map_ext _ _ Hblock). cbn [fst].
  split; [reflexivity|].
  split; [apply loop_pages_nonempty|].
  split; [rewrite loop_pages_concat; apply loop_draws_images|].
  split.
  - apply filter_cut_plain_pages, loop_pages_only_draws. constructor.
  - reflexivity.
Qed.

End Runs.

(** ** Concrete runs *)

Lemma C6_page_count_witness :
  exists pages : list (list (Event nat)),
    generate a4_units ten_images top_cfg false
    = (List.concat (map (page_block top_cfg) pages), Ok tt)
    /\ List.length pages = 2%nat
    /\ map (@List.length (Event nat)) pages = [9; 1]%nat.
Proof.
  destruct (C6_page_count nat a4_units ten_images top_cfg false a4_layout)
    as (pages & G & _ & _ & _ & L & S & _).
  - reflexivity.
  - cbn; lia.
  - cbn; lia.
  - exists pages. split; [exact G|]. split; [exact L | exact S].
Defined.

Lemma C7_draw_position_witness :
  exists (before : list (Event nat)) (x_cnt y_cnt : Z),
    for_in (firstn 2 (image_set ten_images)) (0, 0)%Z
      (loop_body a4_units a4_layout top_cfg true
         (image_width_in a4_units (600, 900)%Z)
         (image_height_in a4_units (600, 900)%Z))
    = (before, Ok (x_cnt, y_cnt))
    /\ nth_error
         (filter is_draw (fst (generate a4_units ten_images top_cfg true))) 2
       = Some (DrawImage 2%nat
                 (page_width a4_units - _cut_margin_x a4_layout
                  - inject_Z (x_cnt + 1) * image_width_in a4_units (600, 900)%Z)
                 (_cut_margin_y a4_layout
                  + inject_Z y_cnt * image_height_in a4_units (600, 900)%Z)
                 (image_width_in a4_units (600, 900)%Z,
                  image_height_in a4_units (600, 900)%Z)).
Proof.
  exact (C7_draw_position nat a4_units ten_images top_cfg true a4_layout
           2 2%nat eq_refl eq_refl).
Defined.

Lemma C8_cut_lines_once_per_page_witness :
  exists pages : list (list (Event nat)),
    Forall (fun page => page <> []) pages
    /\ generate a4_units ten_images top_cfg false
       = (List.concat
            (map (fun page =>
                    [InitializePage] ++ page
                    ++ [DrawCutlines top_cfg; RenderPage]) pages),
          Ok tt).
Proof.
  destruct (C8_cut_lines_once_per_page nat a4_units ten_images top_cfg false
              a4_layout eq_refl) as (pages & N & _ & _ & T).
  exists pages. split; [exact N|]. apply T. reflexivity.
Defined.

(** C9, on the page whose margins exceed half its width: the layout is
    accepted with [-2] cards per row, the run ends without error, and at
    the start of the first iteration the column counter [0] is not below
    the number of cards per row. *)
Lemma C9_counterexample :
  exists lay : Layout,
    _generate_cut_line page_narrow (image_size narrow_images) (0, 0) = Ok lay
    /\ snd (generate page_narrow narrow_images top_cfg false) = Ok tt
    /\ for_in (@nil nat) (0, 0)%Z
         (loop_body page_narrow lay top_cfg false
            (image_width_in page_narrow (2, 900)%Z)
            (image_height_in page_narrow (2, 900)%Z))
       = ([], Ok (0, 0)%Z)
    /\ ~ (0 <= 0 < _card_num_x lay)%Z.
Proof.
  eexists. split; [reflexivity|]. split; [reflexivity|].
  split; [reflexivity|]. cbn. lia.
Qed.

Lemma C9_cursor_invariant_witness :
  exists (before : list (Event nat)) (x_cnt y_cnt : Z),
    for_in (seq 0 4) (0, 0)%Z
      (loop_body a4_units a4_layout top_cfg false
         (image_width_in a4_units (600, 900)%Z)
         (image_height_in a4_units (600, 900)%Z))
    = (before, Ok (x_cnt, y_cnt))
    /\ (0 <= x_cnt < 3)%Z /\ (0 <= y_cnt < 3)%Z.
Proof.
  destruct (C9_cursor_invariant nat a4_units ten_images top_cfg false
              a4_layout (seq 0 4) (seq 5 5) 4%nat)
    as (before & _ & _ & x_cnt & y_cnt & _ & _ & E & _ & _ & _ & Hx & Hy & _).
  - reflexivity.
  - reflexivity.
  - exists before, x_cnt, y_cnt. split; [exact E|]. split; [exact Hx|exact Hy].
Defined.

Lemma C10_unknown_layer_draws_no_cut_lines_witness :
  exists pages : list (list (Event nat)),
    generate a4_units ten_images (mkCutlineConfig "middle" 0 0) false
    = (List.concat
         (map (fun page => [InitializePage] ++ page ++ [RenderPage]) pages),
       Ok tt)
    /\ filter is_cut
         (fst (generate a4_units ten_images (mkCutlineConfig "middle" 0 0)
                 false))
       = [].
Proof.
  destruct (C10_unknown_layer_draws_no_cut_lines nat a4_units ten_images
              (mkCutlineConfig "middle" 0 0) false a4_layout)
    as (pages & G & _ & _ & F & _).
  - discriminate.
  - discriminate.
  - reflexivity.
  - exists pages. split; [exact G | exact F].
Defined.

(** * Part III: further properties of the layout and of the runs

    ** The computed layout *)

Set Implicit Arguments.

Lemma grid_capacity_ok_inv (self : BaseGenerator) (img : Z * Z)
    (nx ny : Z) (mx my : Q) :
  grid_capacity self img = Ok (nx, mx, (ny, my)) ->
  sizes_defined self img
  /\ nx = Qfloor (inject_Z (Py.round (usable_width self)) / image_width_in self img)
  /\ mx = (inject_Z (Py.round (usable_width self))
           - inject_Z nx * image_width_in self img) / 2 + page_margin_x self
  /\ ny = Qfloor (inject_Z (Py.round (usable_height self)) / image_height_in self img)
  /\ my = (inject_Z (Py.round (usable_height self))
           - inject_Z ny * image_height_in self img) / 2 + page_margin_y self.
Proof.
  intros E.
  assert (D : sizes_defined self img).
  { unfold grid_capacity, Py.truediv, Py.divmod in E.
    destruct (Qeq_bool (image_dpi self) 0) eqn:Ed; [discriminate E|].
    cbn [rbind] in E.
    destruct (Qeq_bool (inject_Z (fst img) / image_dpi self) 0) eqn:Ew;
      [discriminate E|].
    cbn [rbind] in E.
    destruct (Qeq_bool (inject_Z (snd img) / image_dpi self) 0) eqn:Eh;
      [discriminate E|].
    apply Qeq_bool_false_iff in Ed, Ew, Eh.
    repeat split; [exact Ed| |]; intros Z0.
    - apply Ew. rewrite Z0. unfold Qdiv. ring.
    - apply Eh. rewrite Z0. unfold Qdiv. ring. }
  split; [exact D|].
  rewrite (grid_capacity_defined D) in E.
  injection E as <- <- <- <-. repeat split; reflexivity.
Qed.

(** ** How many cards fit *)

Lemma floor_div_zero_iff (a b : Q) :
  0 < b -> (Qfloor (a / b) = 0%Z <-> 0 <= a /\ a < b).
Proof.
  intros Hb. pose proof (divmod_remainder_bounds a Hb) as (L & U).
  split.
  - intros Z0. rewrite Z0 in L, U.
    setoid_replace (a - inject_Z 0 * b) with a in L by ring.
    setoid_replace (a - inject_Z 0 * b) with a in U by ring.
    split; assumption.
  - intros (A0 & A1).
    set (q := Qfloor (a / b)) in *.
    destruct (Z.lt_trichotomy q 0) as [N|[E|P]]; [exfalso| exact E |exfalso].
    + assert (Hq : inject_Z q <= -1).
      { change (-1) with (inject_Z (-1)). rewrite <- Zle_Qle. lia. }
      assert (Hm : 0 <= (-1 - inject_Z q) * b)
        by (apply Qmult_le_0_compat; lra).
      setoid_replace ((-1 - inject_Z q) * b) with (- b - inject_Z q * b)
        in Hm by ring.
      generalize dependent (inject_Z q * b). intros p L U Hm. lra.
    + assert (Hq : 1 <= inject_Z q).
      { change 1 with (inject_Z 1). rewrite <- Zle_Qle. lia. }
      assert (Hm : 0 <= (inject_Z q - 1) * b)
        by (apply Qmult_le_0_compat; lra).
      setoid_replace ((inject_Z q - 1) * b) with (inject_Z q * b - b)
        in Hm by ring.
      generalize dependent (inject_Z q * b). intros p L U Hm. lra.
Qed.

Lemma inches_positive (px : Z) (dpi : Q) :
  0 < dpi -> (0 < px)%Z -> 0 < inject_Z px / dpi.
Proof.
  intros Hd Hp. apply Qlt_shift_div_l; [exact Hd|].
  setoid_replace (0 * dpi) with (inject_Z 0) by ring.
  rewrite <- Zlt_Qlt. exact Hp.
Qed.

(** X3: on exactly representable lengths, for an image of positive size at
    a positive dpi, the layout is refused as too large exactly when the
    usable width, rounded, lies in [[0, image width)], or the usable height,
    rounded, in [[0, image height)]; in particular a negative rounded extent
    is not refused. *)
Theorem X3_too_large_iff (self : BaseGenerator) (img : Z * Z) (trim : Q * Q) :
  exact_units self img ->
  0 < image_dpi self -> (0 < fst img)%Z -> (0 < snd img)%Z ->
  (_generate_cut_line self img trim = Raise too_large
   <-> (0 <= inject_Z (Py.round (usable_width self))
        /\ inject_Z (Py.round (usable_width self)) < image_width_in self img)
       \/ (0 <= inject_Z (Py.round (usable_height self))
           /\ inject_Z (Py.round (usable_height self))
              < image_height_in self img)).
Proof.
  intros _ Hd Hw Hh.
  assert (D : sizes_defined self img).
  { repeat split; [|lia|lia]. intros E. rewrite E in Hd.
    exact (Qlt_irrefl 0 Hd). }
  pose proof (inches_positive Hd Hw) as Pw.
  pose proof (inches_positive Hd Hh) as Ph.
  fold (image_width_in self img) in Pw.
  fold (image_height_in self img) in Ph.
  rewrite generate_cut_line_unfold, (grid_capacity_defined D).
  rewrite <- (floor_div_zero_iff _ Pw), <- (floor_div_zero_iff _ Ph).
  destruct (Z.eqb_spec
              (Qfloor (inject_Z (Py.round (usable_width self))
                       / image_width_in self img)) 0) as [Ex|Ex];
    destruct (Z.eqb_spec
                (Qfloor (inject_Z (Py.round (usable_height self))
                         / image_height_in self img)) 0) as [Ey|Ey];
    cbn [orb]; split; intros H; try reflexivity; try discriminate H; tauto.
Qed.

Lemma a4_tall_exact_units : exact_units a4_units (600, 3000)%Z.
Proof.
  unfold exact_units.
  split; [apply (@exact_length_of_Z 2100), small_Z; reflexivity|].
  split; [apply (@exact_length_of_Z 2970), small_Z; reflexivity|].
  split; [apply (@exact_length_of_Z 30), small_Z; reflexivity|].
  split; [apply (@exact_length_of_Z 30), small_Z; reflexivity|].
  split; [apply (@exact_length_of_Z 1), small_Z; reflexivity|].
  split; [apply Z.leb_le; reflexivity|].
  split; [apply Z.leb_le; reflexivity|].
  split.
  - exists (600 * 1024)%Z. split; [reflexivity | apply Z.leb_le; reflexivity].
  - exists (3000 * 1024)%Z. split; [reflexivity | apply Z.leb_le; reflexivity].
Qed.

Lemma X3_too_large_iff_witness :
  _generate_cut_line a4_units (600, 3000)%Z (0, 0) = Raise too_large.
Proof.
  apply (proj2 (@X3_too_large_iff a4_units (600, 3000)%Z (0, 0)
                  a4_tall_exact_units
                  ltac:(reflexivity) ltac:(reflexivity) ltac:(reflexivity))).
  right. split; [discriminate | reflexivity].
Defined.

Lemma half_bounds (d w m : Q) :
  0 <= d -> d < w -> m <= d / 2 + m /\ d / 2 + m < m + w / 2.
Proof.
  intros L U.
  setoid_replace (d / 2) with (d * (1 # 2)) by field.
  setoid_replace (w / 2) with (w * (1 # 2)) by field.
  split; lra.
Qed.

(** X4: on exactly representable lengths, in a successful layout with a
    positive image width, the cards of a row fit into the rounded usable
    width and one more would not, and the cut margin is at least the page
    margin and exceeds it by less than half an image width; likewise on the
    vertical axis for a positive image height. *)
Theorem X4_cards_fit (self : BaseGenerator) (img : Z * Z) (trim : Q * Q)
    (lay : Layout) :
  _generate_cut_line self img trim = Ok lay ->
  exact_units self img ->
  (0 < image_width_in self img ->
   inject_Z (_card_num_x lay) * image_width_in self img
   <= inject_Z (Py.round (usable_width self))
   /\ inject_Z (Py.round (usable_width self))
      < (inject_Z (_card_num_x lay) + 1) * image_width_in self img
   /\ page_margin_x self <= _cut_margin_x lay
   /\ _cut_margin_x lay < page_margin_x self + image_width_in self img / 2)
  /\ (0 < image_height_in self img ->
      inject_Z (_card_num_y lay) * image_height_in self img
      <= inject_Z (Py.round (usable_height self))
      /\ inject_Z (Py.round (usable_height self))
         < (inject_Z (_card_num_y lay) + 1) * image_height_in self img
      /\ page_margin_y self <= _cut_margin_y lay
      /\ _cut_margin_y lay
         < page_margin_y self + image_height_in self img / 2).
Proof.
  intros E _. destruct (@generate_cut_line_ok _ _ _ _ E) as (G & _).
  destruct (@grid_capacity_ok_inv _ _ _ _ _ _ G) as (_ & Nx & Mx & Ny & My).
  split; intros P.
  - pose proof (divmod_remainder_bounds
                  (inject_Z (Py.round (usable_width self))) P) as (L & U).
    rewrite <- Nx in L, U. rewrite Mx.
    setoid_replace ((inject_Z (_card_num_x lay) + 1) * image_width_in self img)
      with (inject_Z (_card_num_x lay) * image_width_in self img
            + image_width_in self img) by ring.
    set (u := inject_Z (Py.round (usable_width self))) in *.
    set (p := inject_Z (_card_num_x lay) * image_width_in self img) in *.
    clearbody u p.
    destruct (half_bounds (page_margin_x self) L U) as (H1 & H2).
    repeat split; try assumption; lra.
  - pose proof (divmod_remainder_bounds
                  (inject_Z (Py.round (usable_height self))) P) as (L & U).
    rewrite <- Ny in L, U. rewrite My.
    setoid_replace ((inject_Z (_card_num_y lay) + 1) * image_height_in self img)
      with (inject_Z (_card_num_y lay) * image_height_in self img
            + image_height_in self img) by ring.
    set (u := inject_Z (Py.round (usable_height self))) in *.
    set (p := inject_Z (_card_num_y lay) * image_height_in self img) in *.
    clearbody u p.
    destruct (half_bounds (page_margin_y self) L U) as (H1 & H2).
    repeat split; try assumption; lra.
Qed.

Lemma X4_cards_fit_witness :
  page_margin_x a4_units <= _cut_margin_x a4_layout
  /\ _cut_margin_x a4_layout
     < page_margin_x a4_units + image_width_in a4_units (600, 900)%Z / 2.
Proof.
  destruct (@X4_cards_fit a4_units (600, 900)%Z (0, 0) a4_layout eq_refl
              a4_exact_units) as (Hx & _).
  destruct Hx as (_ & _ & H1 & H2); [reflexivity|].
  split; [exact H1 | exact H2].
Defined.

(** X5: on exactly representable lengths, in a successful layout, twice
    the cut margin plus the width of the cards of a row is the page width
    plus what rounding added to the usable width; so when the usable width
    is a whole number the grid is centred: the space right of the last card
    equals the cut margin.  Likewise on the vertical axis. *)
Theorem X5_grid_centred (self : BaseGenerator) (img : Z * Z) (trim : Q * Q)
    (lay : Layout) :
  _generate_cut_line self img trim = Ok lay ->
  exact_units self img ->
  (_cut_margin_x lay + inject_Z (_card_num_x lay) * image_width_in self img
   + _cut_margin_x lay
   == page_width self
      + (inject_Z (Py.round (usable_width self)) - usable_width self))
  /\ (forall uw : Z,
         usable_width self == inject_Z uw ->
         page_width self
         - (_cut_margin_x lay
            + inject_Z (_card_num_x lay) * image_width_in self img)
         == _cut_margin_x lay)
  /\ (_cut_margin_y lay + inject_Z (_card_num_y lay) * image_height_in self img
      + _cut_margin_y lay
      == page_height self
         + (inject_Z (Py.round (usable_height self)) - usable_height self))
  /\ (forall uh : Z,
         usable_height self == inject_Z uh ->
         page_height self
         - (_cut_margin_y lay
            + inject_Z (_card_num_y lay) * image_height_in self img)
         == _cut_margin_y lay).
Proof.
  intros E _. destruct (@generate_cut_line_ok _ _ _ _ E) as (G & _).
  destruct (@grid_capacity_ok_inv _ _ _ _ _ _ G) as (_ & _ & Mx & _ & My).
  assert (Cx : _cut_margin_x lay
               + inject_Z (_card_num_x lay) * image_width_in self img
               + _cut_margin_x lay
               == page_width self
                  + (inject_Z (Py.round (usable_width self))
                     - usable_width self)).
  { rewrite Mx. unfold usable_width. field. }
  assert (Cy : _cut_margin_y lay
               + inject_Z (_card_num_y lay) * image_height_in self img
               + _cut_margin_y lay
               == page_height self
                  + (inject_Z (Py.round (usable_height self))
                     - usable_height self)).
  { rewrite My. unfold usable_height. field. }
  split; [exact Cx|]. split; [|split; [exact Cy|]].
  - intros uw W. rewrite (round_whole W), <- W in Cx.
    set (p := inject_Z (_card_num_x lay) * image_width_in self img) in *.
    clearbody p. lra.
  - intros uh W. rewrite (round_whole W), <- W in Cy.
    set (p := inject_Z (_card_num_y lay) * image_height_in self img) in *.
    clearbody p. lra.
Qed.

Lemma X5_grid_centred_witness :
  page_width a4_units
  - (_cut_margin_x a4_layout
     + inject_Z (_card_num_x a4_layout) * image_width_in a4_units (600, 900)%Z)
  == _cut_margin_x a4_layout.
Proof.
  destruct (@X5_grid_centred a4_units (600, 900)%Z (0, 0) a4_layout eq_refl
              a4_exact_units) as (_ & H & _).
  apply (H 2040%Z). reflexivity.
Defined.

(** ** The lines of a clean cut *)

Lemma vertical_cuts_clean (extent len trim margin : Q) (n first : nat)
    (prev : Q) :
  Py.truthy trim = false ->
  prev == margin + inject_Z (Z.of_nat first) * len ->
  Forall2 cutline_eq
    (vertical_cuts n prev len trim extent)
    (clean_lines (fun x => mkCutLine x 0 x extent) margin len (S first) n).
Proof.
  intros Ht. revert first prev.
  induction n as [|n IH]; intros first prev Hp; [constructor|].
  assert (Hn : prev + len == margin + inject_Z (Z.of_nat (S first)) * len).
  { rewrite Hp, Nat2Z.inj_succ. unfold Z.succ.
    rewrite inject_Z_plus. change (inject_Z 1) with 1. ring. }
  cbn [vertical_cuts]. rewrite Ht.
  unfold clean_lines. cbn [seq map app].
  constructor.
  - unfold cutline_eq; cbn [x0 y0 x1 y1]. rewrite Hn.
    repeat split; reflexivity.
  - apply IH, Hn.
Qed.

Lemma clean_lines_transpose (extent margin len : Q) (first n : nat) :
  map transpose (clean_lines (fun x => mkCutLine x 0 x extent) margin len first n)
  = clean_lines (fun y => mkCutLine 0 y extent y) margin len first n.
Proof.
  unfold clean_lines. rewrite map_map. reflexivity.
Qed.

Lemma vertical_cutlines_clean (self : BaseGenerator) (n : Z) (cm len trim : Q) :
  Py.truthy trim = false ->
  Forall2 cutline_eq (vertical_cutlines self n cm len trim)
    (clean_lines (vline self) cm len 0 (S (Z.to_nat n))).
Proof.
  intros Ht. unfold vertical_cutlines. rewrite Ht. cbn [negb app].
  unfold clean_lines. cbn [seq map]. constructor.
  - unfold cutline_eq, vline; cbn [x0 y0 x1 y1].
    repeat split; try reflexivity; cbn; ring.
  - apply (@vertical_cuts_clean (page_height self) len trim cm
             (Py.range_len n) 0 cm Ht).
    cbn. ring.
Qed.

Lemma horizontal_cutlines_clean (self : BaseGenerator) (n : Z) (cm len trim : Q) :
  Py.truthy trim = false ->
  Forall2 cutline_eq (horizontal_cutlines self n cm len trim)
    (clean_lines (hline self) cm len 0 (S (Z.to_nat n))).
Proof.
  intros Ht. unfold horizontal_cutlines. rewrite Ht. cbn [negb app].
  unfold clean_lines at 1. cbn [seq map]. constructor.
  - unfold cutline_eq, hline; cbn [x0 y0 x1 y1].
    repeat split; try reflexivity; cbn; ring.
  - rewrite horizontal_cuts_transpose.
    change (map (fun k : nat => hline self (cm + inject_Z (Z.of_nat k) * len))
              (seq 1 (Z.to_nat n)))
      with (clean_lines (fun y => mkCutLine 0 y (page_width self) y)
              cm len 1 (Z.to_nat n)).
    rewrite <- clean_lines_transpose.
    apply Forall2_map_both with (R := cutline_eq).
    + unfold cutline_eq, transpose. cbn. tauto.
    + apply (@vertical_cuts_clean (page_width self) len trim cm
               (Py.range_len n) 0 cm Ht).
      cbn. ring.
Qed.

(** X6: on exactly representable lengths, in a successful layout with a
    zero horizontal trim offset the vertical lines are exactly the
    full-height lines at [cutMarginX + k * imageWidth] for
    [k = 0, ..., max(cardsPerRow, 0)], from left to right: every cell
    boundary once, the two outer ones included (and the left one alone when
    the number of cards is negative).  Likewise for the horizontal lines
    with a zero vertical trim offset. *)
Theorem X6_clean_cut_lines (self : BaseGenerator) (img : Z * Z) (trim : Q * Q)
    (lay : Layout) :
  _generate_cut_line self img trim = Ok lay ->
  exact_units self img ->
  exists V H : list CutLine,
    _cutline_set lay = V ++ H
    /\ Forall (is_vline self) V /\ Forall (is_hline self) H
    /\ (fst trim == 0 ->
        Forall2 cutline_eq V
          (clean_lines (vline self) (_cut_margin_x lay)
             (image_width_in self img) 0 (S (Z.to_nat (_card_num_x lay)))))
    /\ (snd trim == 0 ->
        Forall2 cutline_eq H
          (clean_lines (hline self) (_cut_margin_y lay)
             (image_height_in self img) 0 (S (Z.to_nat (_card_num_y lay))))).
Proof.
  intros E _. destruct (@generate_cut_line_ok _ _ _ _ E) as (_ & _ & _ & Hset).
  eexists. eexists. split; [exact Hset|].
  split; [apply vertical_cutlines_shape|].
  split; [apply horizontal_cutlines_shape|].
  split; intros Ht.
  - apply vertical_cutlines_clean, truthy_false_iff, Ht.
  - apply horizontal_cutlines_clean, truthy_false_iff, Ht.
Qed.

Lemma X6_clean_cut_lines_witness :
  exists V H : list CutLine,
    _cutline_set a4_layout = V ++ H
    /\ List.length V = 4%nat /\ List.length H = 4%nat.
Proof.
  destruct (@X6_clean_cut_lines a4_units (600, 900)%Z (0, 0) a4_layout eq_refl
              a4_exact_units) as (V & H & Hset & _ & _ & Hv & Hh).
  exists V, H. split; [exact Hset|]. split.
  - rewrite (Forall2_length (Hv ltac:(reflexivity))). reflexivity.
  - rewrite (Forall2_length (Hh ltac:(reflexivity))). reflexivity.
Defined.

(** ** The two axes *)

Lemma transpose_involutive (l : CutLine) : transpose (transpose l) = l.
Proof. destruct l. reflexivity. Qed.

Lemma map_transpose_involutive (ls : list CutLine) :
  map transpose (map transpose ls) = ls.
Proof.
  rewrite map_map. rewrite <- (map_id ls) at 2.
  apply map_ext, transpose_involutive.
Qed.

Lemma vertical_cutlines_transpose (self : BaseGenerator) (n : Z)
    (cm len trim : Q) :
  vertical_cutlines (transpose_page self) n cm len trim
  = map transpose (horizontal_cutlines self n cm len trim).
Proof.
  unfold vertical_cutlines, horizontal_cutlines. rewrite map_app.
  rewrite horizontal_cuts_transpose, map_transpose_involutive.
  destruct (Py.truthy trim); reflexivity.
Qed.

Lemma horizontal_cutlines_transpose (self : BaseGenerator) (n : Z)
    (cm len trim : Q) :
  horizontal_cutlines (transpose_page self) n cm len trim
  = map transpose (vertical_cutlines self n cm len trim).
Proof.
  unfold vertical_cutlines, horizontal_cutlines. rewrite map_app.
  rewrite horizontal_cuts_transpose.
  destruct (Py.truthy trim); reflexivity.
Qed.

Lemma grid_capacity_transpose (self : BaseGenerator) (img : Z * Z) :
  grid_capacity (transpose_page self) (snd img, fst img)
  = match grid_capacity self img with
    | Ok (nx, mx, (ny, my)) => Ok (ny, my, (nx, mx))
    | Raise e => Raise e
    end.
Proof.
  unfold grid_capacity, Py.truediv, Py.divmod, transpose_page.
  cbn [fst snd image_dpi page_width page_height page_margin_x page_margin_y].
  destruct (Qeq_bool (image_dpi self) 0); cbn [rbind]; [reflexivity|].
  destruct (Qeq_bool (inject_Z (snd img) / image_dpi self) 0);
    destruct (Qeq_bool (inject_Z (fst img) / image_dpi self) 0);
    reflexivity.
Qed.

(** X7: the layout treats the two axes alike.  For the page turned by a
    quarter (width and height, margins, image dimensions and trim offsets
    exchanged) the layout fails with the same exception, or succeeds with
    the card counts and cut margins exchanged and with the transposed cut
    lines: the transposed horizontal lines first, then the transposed
    vertical lines. *)
Theorem X7_axes_exchanged (self : BaseGenerator) (img : Z * Z) (trim : Q * Q) :
  match _generate_cut_line self img trim,
        _generate_cut_line (transpose_page self) (snd img, fst img)
          (snd trim, fst trim) with
  | Ok lay, Ok lay' =>
      _card_num_x lay' = _card_num_y lay
      /\ _card_num_y lay' = _card_num_x lay
      /\ _cut_margin_x lay' = _cut_margin_y lay
      /\ _cut_margin_y lay' = _cut_margin_x lay
      /\ exists V H : list CutLine,
           _cutline_set lay = V ++ H
           /\ Forall (is_vline self) V /\ Forall (is_hline self) H
           /\ _cutline_set lay' = map transpose H ++ map transpose V
  | Raise e, Raise e' => e = e'
  | _, _ => False
  end.
Proof.
  rewrite !generate_cut_line_unfold, grid_capacity_transpose.
  destruct (grid_capacity self img) as [[[nx mx] [ny my]]|e]; [|reflexivity].
  rewrite (orb_comm (ny =? 0)%Z).
  destruct ((nx =? 0)%Z || (ny =? 0)%Z); [reflexivity|].
  cbn [_card_num_x _card_num_y _cut_margin_x _cut_margin_y _cutline_set
       fst snd].
  repeat (split; [reflexivity|]).
  eexists. eexists. split; [reflexivity|].
  split; [apply vertical_cutlines_shape|].
  split; [apply horizontal_cutlines_shape|].
  rewrite vertical_cutlines_transpose, horizontal_cutlines_transpose.
  reflexivity.
Qed.

(** ** Where the images go *)

Unset Implicit Arguments.

Section Cells.

Variable Image : Type.

Local Abbreviation Event := (Event Image).

Lemma draws_of_run (self : BaseGenerator) (cat : ImageCatalog Image)
    (cfg : CutlineConfig) (rtl : bool) (lay : Layout) :
  _generate_cut_line self (image_size cat)
    (trim_offset_x cfg, trim_offset_y cfg) = Ok lay ->
  filter is_draw (fst (generate self cat cfg rtl))
  = loop_draws self lay rtl (image_width_in self (image_size cat))
      (image_height_in self (image_size cat)) (0, 0)%Z (image_set cat).
Proof.
  intros E. rewrite (generate_run Image self cat cfg rtl lay E). cbn [fst].
  rewrite filter_app, filter_draw_loop_calls, filter_draw_final_calls.
  apply app_nil_r.
Qed.

(** X8: drawing right to left mirrors the page about its vertical centre
    line.  On exactly representable lengths, in two runs with the same
    successful layout, one right to left and one left to right, the [k]-th
    image is drawn at the same height and with the same size, and its right
    edge in the first run is as far from the right page edge as its left
    edge in the second run is from the left page edge. *)
Theorem X8_rtl_mirrors_the_page (self : BaseGenerator)
    (cat : ImageCatalog Image) (cfg : CutlineConfig) (lay : Layout)
    (k : nat) (i : Image) :
  _generate_cut_line self (image_size cat)
    (trim_offset_x cfg, trim_offset_y cfg) = Ok lay ->
  exact_units self (image_size cat) ->
  nth_error (image_set cat) k = Some i ->
  exists (x_rtl x_ltr y_pos : Q) (dim : Q * Q),
    nth_error (filter is_draw (fst (generate self cat cfg true))) k
    = Some (DrawImage i x_rtl y_pos dim)
    /\ nth_error (filter is_draw (fst (generate self cat cfg false))) k
       = Some (DrawImage i x_ltr y_pos dim)
    /\ page_width self - (x_rtl + fst dim) == x_ltr.
Proof.
  intros E _ Hk.
  rewrite !(draws_of_run self cat cfg _ lay E).
  rewrite !(nth_loop_draws Image self lay _ _ _ _ _ _ _ Hk).
  unfold draw_call. do 4 eexists.
  split; [reflexivity|]. split; [reflexivity|].
  cbn [fst]. rewrite inject_Z_plus. change (inject_Z 1) with 1. ring.
Qed.

Lemma placed_next (lay : Layout) (cnt : Z * Z) :
  (1 <= _card_num_x lay)%Z -> (1 <= _card_num_y lay)%Z ->
  in_grid lay cnt ->
  placed lay (next_cnt lay cnt)
  = ((placed lay cnt + 1) mod (_card_num_x lay * _card_num_y lay))%Z.
Proof.
  intros Hc Hr G. unfold next_cnt.
  destruct (page_full lay cnt) eqn:Pf.
  - apply (page_full_iff lay cnt G) in Pf. rewrite Pf, Z.mod_same by nia.
    reflexivity.
  - destruct (wrap_in_grid lay cnt G Pf) as (G' & ->).
    pose proof (placed_bounds lay _ G') as B.
    pose proof (placed_bounds lay _ G) as B0.
    destruct (wrap_in_grid lay cnt G Pf) as (_ & P'). rewrite P' in B.
    symmetry. apply Z.mod_small. lia.
Qed.

Lemma placed_loop (lay : Layout) (images : list Image) :
  (1 <= _card_num_x lay)%Z -> (1 <= _card_num_y lay)%Z ->
  forall cnt : Z * Z,
    in_grid lay cnt ->
    placed lay (loop_cnt lay cnt images)
    = ((placed lay cnt + Z.of_nat (List.length images))
       mod (_card_num_x lay * _card_num_y lay))%Z.
Proof.
  intros Hc Hr. induction images as [|i rest IH]; intros cnt G.
  - cbn [loop_cnt List.length]. rewrite Z.add_0_r.
    symmetry. apply Z.mod_small, placed_bounds, G.
  - cbn [loop_cnt List.length].
    rewrite (IH _ (next_cnt_in_grid lay cnt Hc Hr G)).
    rewrite (placed_next lay cnt Hc Hr G), Zplus_mod_idemp_l.
    f_equal. lia.
Qed.

Lemma cell_of_placed (lay : Layout) (cnt : Z * Z) :
  in_grid lay cnt ->
  cnt = ((placed lay cnt mod _card_num_x lay)%Z,
         (placed lay cnt / _card_num_x lay)%Z).
Proof.
  destruct cnt as [x y]. unfold in_grid, placed. cbn [fst snd].
  intros (Hx & Hy). f_equal.
  - apply (Z.mod_unique _ _ y); [left; lia | lia].
  - apply (Z.div_unique _ _ _ x); [left; lia | lia].
Qed.

Lemma draw_cell_closed_form (self : BaseGenerator) (cat : ImageCatalog Image)
    (cfg : CutlineConfig) (rtl : bool) (lay : Layout) (k : nat) (i : Image) :
  _generate_cut_line self (image_size cat)
    (trim_offset_x cfg, trim_offset_y cfg) = Ok lay ->
  (1 <= _card_num_x lay)%Z -> (1 <= _card_num_y lay)%Z ->
  nth_error (image_set cat) k = Some i ->
  let image_width := image_width_in self (image_size cat) in
  let image_height := image_height_in self (image_size cat) in
  let on_page := (Z.of_nat k mod (_card_num_x lay * _card_num_y lay))%Z in
  let column := (on_page mod _card_num_x lay)%Z in
  let row := (on_page / _card_num_x lay)%Z in
  nth_error (filter is_draw (fst (generate self cat cfg rtl))) k
  = Some (DrawImage i
            (if rtl then
               page_width self - _cut_margin_x lay
               - inject_Z (column + 1) * image_width
             else _cut_margin_x lay + inject_Z column * image_width)
            (_cut_margin_y lay + inject_Z row * image_height)
            (image_width, image_height)).
Proof.
  intros E Hc Hr Hk iw ih on_page column row.
  rewrite (draws_of_run self cat cfg rtl lay E).
  rewrite (nth_loop_draws Image self lay rtl _ _ _ _ _ _ Hk).
  assert (G : in_grid lay (loop_cnt lay (0, 0)%Z (firstn k (image_set cat))))
    by (apply loop_cnt_in_grid; [exact Hc|exact Hr|apply in_grid_origin; assumption]).
  assert (P : placed lay (loop_cnt lay (0, 0)%Z (firstn k (image_set cat)))
              = on_page).
  { rewrite (placed_loop lay _ Hc Hr (0, 0)%Z (in_grid_origin lay Hc Hr)).
    rewrite firstn_length_le.
    - reflexivity.
    - apply Nat.lt_le_incl, nth_error_Some. rewrite Hk. discriminate. }
  rewrite (cell_of_placed lay _ G), P.
  reflexivity.
Qed.

(** X9: the images fill the page row by row.  With a grid of [c >= 1] by
    [r >= 1] cards, the [k]-th image of the catalog (from 0) is drawn in
    column [(k mod (c * r)) mod c] and row [(k mod (c * r)) / c] of its
    page, at the position those counters give. *)
Theorem X9_row_major_cells (self : BaseGenerator) (cat : ImageCatalog Image)
    (cfg : CutlineConfig) (rtl : bool) (lay : Layout) (k : nat) (i : Image) :
  _generate_cut_line self (image_size cat)
    (trim_offset_x cfg, trim_offset_y cfg) = Ok lay ->
  (1 <= _card_num_x lay)%Z -> (1 <= _card_num_y lay)%Z ->
  nth_error (image_set cat) k = Some i ->
  let image_width := image_width_in self (image_size cat) in
  let image_height := image_height_in self (image_size cat) in
  let on_page := (Z.of_nat k mod (_card_num_x lay * _card_num_y lay))%Z in
  let column := (on_page mod _card_num_x lay)%Z in
  let row := (on_page / _card_num_x lay)%Z in
  nth_error (filter is_draw (fst (generate self cat cfg rtl))) k
  = Some (DrawImage i
            (if rtl then
               page_width self - _cut_margin_x lay
               - inject_Z (column + 1) * image_width
             else _cut_margin_x lay + inject_Z column * image_width)
            (_cut_margin_y lay + inject_Z row * image_height)
            (image_width, image_height)).
Proof.
  exact (draw_cell_closed_form self cat cfg rtl lay k i).
Qed.

Lemma cell_inside_1d (W m iw cm d : Q) (c x : Z) :
  0 < iw -> 0 <= d -> cm == d / 2 + m ->
  d + inject_Z c * iw == W - m * 2 ->
  (0 <= x < c)%Z ->
  (m <= cm + inject_Z x * iw /\ cm + inject_Z x * iw + iw <= W - m)
  /\ (m <= W - cm - inject_Z (x + 1) * iw
      /\ W - cm - inject_Z (x + 1) * iw + iw <= W - m).
Proof.
  intros Hw Hd Hcm Hsum Hx.
  assert (A : 0 <= inject_Z x * iw).
  { apply Qmult_le_0_compat; [|lra].
    change 0 with (inject_Z 0). rewrite <- Zle_Qle. lia. }
  assert (B : 0 <= (inject_Z c - inject_Z x - 1) * iw).
  { apply Qmult_le_0_compat; [|lra].
    setoid_replace (inject_Z c - inject_Z x - 1)
      with (inject_Z (c + - x + - 1))
      by (rewrite !inject_Z_plus, !inject_Z_opp; reflexivity).
    change 0 with (inject_Z 0). rewrite <- Zle_Qle. lia. }
  setoid_replace ((inject_Z c - inject_Z x - 1) * iw)
    with (inject_Z c * iw - inject_Z x * iw - iw) in B by ring.
  rewrite inject_Z_plus. change (inject_Z 1) with 1.
  setoid_replace ((inject_Z x + 1) * iw) with (inject_Z x * iw + iw) by ring.
  setoid_replace (d / 2) with (d * (1 # 2)) in Hcm by field.
  set (a := inject_Z x * iw) in *. set (b := inject_Z c * iw) in *.
  clearbody a b. repeat split; lra.
Qed.

Lemma loop_calls_inside (self : BaseGenerator) (lay : Layout) (rtl : bool)
    (iw ih : Q) (cfg : CutlineConfig) :
  (1 <= _card_num_x lay)%Z -> (1 <= _card_num_y lay)%Z ->
  (forall (cnt : Z * Z) (i : Image),
      in_grid lay cnt ->
      inside_margins self (draw_call self lay rtl iw ih cnt i)) ->
  forall (images : list Image) (cnt : Z * Z),
    in_grid lay cnt ->
    Forall (inside_margins self) (loop_calls self lay rtl iw ih cfg cnt images).
Proof.
  intros Hc Hr Hdraw.
  assert (Hcut : forall name, Forall (inside_margins self)
                                (@cut_if Image cfg name)).
  { intros name. unfold cut_if.
    destruct (layer cfg =? name)%string; repeat constructor. }
  induction images as [|i rest IH]; intros cnt G; [constructor|].
  cbn [loop_calls]. apply Forall_app. split.
  - unfold body_calls. apply Forall_app. split; [|apply Forall_app; split].
    + destruct (fresh cnt); [|constructor].
      constructor; [exact I | apply Hcut].
    + constructor; [apply Hdraw, G | constructor].
    + destruct (page_full lay cnt); [|constructor].
      apply Forall_app. split; [apply Hcut | repeat constructor].
  - apply IH, next_cnt_in_grid; assumption.
Qed.

(** X10: on exactly representable lengths, when the usable width and
    height of the page are whole numbers, the image has a positive size and
    at least one card fits on each axis, every image is drawn between the
    page margins, in both drawing directions: its left and top edges are
    not before the margins and its right and bottom edges not beyond
    them. *)
Theorem X10_images_inside_margins (self : BaseGenerator)
    (cat : ImageCatalog Image) (cfg : CutlineConfig) (rtl : bool)
    (lay : Layout) (uw uh : Z) :
  _generate_cut_line self (image_size cat)
    (trim_offset_x cfg, trim_offset_y cfg) = Ok lay ->
  exact_units self (image_size cat) ->
  0 < image_dpi self ->
  (0 < fst (image_size cat))%Z -> (0 < snd (image_size cat))%Z ->
  usable_width self == inject_Z uw -> usable_height self == inject_Z uh ->
  (1 <= _card_num_x lay)%Z -> (1 <= _card_num_y lay)%Z ->
  Forall (inside_margins self) (fst (generate self cat cfg rtl)).
Proof.
  intros E _ Hd Hw Hh Uw Uh Hc Hr.
  pose proof (inches_positive Hd Hw) as Pw.
  pose proof (inches_positive Hd Hh) as Ph.
  fold (image_width_in self (image_size cat)) in Pw.
  fold (image_height_in self (image_size cat)) in Ph.
  destruct (@generate_cut_line_ok _ _ _ _ E) as (G & _).
  destruct (@grid_capacity_ok_inv _ _ _ _ _ _ G) as (_ & Nx & Mx & Ny & My).
  pose proof (divmod_remainder_bounds
                (inject_Z (Py.round (usable_width self))) Pw) as (Lx & _).
  pose proof (divmod_remainder_bounds
                (inject_Z (Py.round (usable_height self))) Ph) as (Ly & _).
  rewrite <- Nx in Lx. rewrite <- Ny in Ly.
  rewrite (round_whole Uw) in Lx, Mx. rewrite (round_whole Uh) in Ly, My.
  rewrite (generate_run Image self cat cfg rtl lay E). cbn [fst].
  apply Forall_app. split.
  - apply loop_calls_inside; [exact Hc | exact Hr | |
                              apply in_grid_origin; assumption].
    intros cnt i (Gx & Gy). unfold draw_call, inside_margins.
    destruct (cell_inside_1d (page_width self) (page_margin_x self)
                (image_width_in self (image_size cat)) (_cut_margin_x lay)
                (inject_Z uw - inject_Z (_card_num_x lay)
                               * image_width_in self (image_size cat))
                (_card_num_x lay) (fst cnt) Pw Lx)
      as ((X1 & X2) & (X3 & X4)).
    { rewrite Mx. reflexivity. }
    { rewrite <- Uw. unfold usable_width. ring. }
    { exact Gx. }
    destruct (cell_inside_1d (page_height self) (page_margin_y self)
                (image_height_in self (image_size cat)) (_cut_margin_y lay)
                (inject_Z uh - inject_Z (_card_num_y lay)
                               * image_height_in self (image_size cat))
                (_card_num_y lay) (snd cnt) Ph Ly)
      as ((Y1 & Y2) & _).
    { rewrite My. reflexivity. }
    { rewrite <- Uh. unfold usable_height. ring. }
    { exact Gy. }
    destruct rtl; repeat split; assumption.
  - unfold final_calls, cut_if.
    destruct (fresh _); [constructor|].
    destruct (layer cfg =? "top")%string; repeat constructor.
Qed.

(** X11: with an empty catalog [generate] calls no hook, and its outcome is
    that of the layout: no error when the image fits, and otherwise the
    layout's exception even though nothing would be drawn. *)
Theorem X11_empty_catalog (self : BaseGenerator) (cat : ImageCatalog Image)
    (cfg : CutlineConfig) (rtl : bool) :
  image_set cat = [] ->
  generate self cat cfg rtl
  = ([],
     match _generate_cut_line self (image_size cat)
             (trim_offset_x cfg, trim_offset_y cfg) with
     | Ok _ => Ok tt
     | Raise e => Raise e
     end).
Proof.
  intros Hempty.
  destruct (_generate_cut_line self (image_size cat)
              (trim_offset_x cfg, trim_offset_y cfg)) as [lay|e] eqn:E.
  - rewrite (generate_run Image self cat cfg rtl lay E), Hempty. reflexivity.
  - apply generate_layout_raises, E.
Qed.

End Cells.

(** ** Errors raised by the hooks *)

Section HookErrors.

Variable Image : Type.
Variable fails : Event Image -> bool.
Variable e : exn.

Local Abbreviation Event := (Event Image).

Lemma cut_at_app (t t' : list Event) :
  cut_at fails (t ++ t')
  = if existsb fails t then cut_at fails t else t ++ cut_at fails t'.
Proof.
  induction t as [|ev t IH]; [reflexivity|].
  cbn [app cut_at existsb]. destruct (fails ev); cbn [orb]; [reflexivity|].
  rewrite IH. destruct (existsb fails t); reflexivity.
Qed.

Lemma cut_at_none (t : list Event) :
  existsb fails t = false -> cut_at fails t = t.
Proof.
  induction t as [|ev t IH]; [reflexivity|].
  cbn [cut_at existsb]. destruct (fails ev); cbn [orb]; [discriminate|].
  intros H. rewrite (IH H). reflexivity.
Qed.

(** One iteration with guarded hooks: the calls of the iteration up to the
    first failing one. *)
Lemma loop_body_guarded (self : BaseGenerator) (lay : Layout)
    (cfg : CutlineConfig) (rtl : bool) (iw ih : Q) (cnt : Z * Z) (i : Image) :
  loop_body_with (guarded fails e) self lay cfg rtl iw ih cnt i
  = (cut_at fails (body_calls self lay rtl iw ih cfg cnt i),
     if existsb fails (body_calls self lay rtl iw ih cfg cnt i)
     then Raise e else Ok (next_cnt lay cnt)).
Proof.
  destruct cnt as [x_cnt y_cnt].
  unfold loop_body_with, body_calls, next_cnt, page_full, wrap, fresh, cut_if,
    draw_call, when, guarded, guard, bind, ret.
  cbn [fst snd initialize_page render_page draw_image draw_cutlines].
  destruct ((x_cnt =? 0)%Z && (y_cnt =? 0)%Z);
    destruct (layer cfg =? "bottom")%string;
    destruct (x_cnt + 1 >=? _card_num_x lay)%Z; cbn [fst snd];
    destruct (layer cfg =? "top")%string;
    try (destruct (y_cnt + 1 >=? _card_num_y lay)%Z);
    try (destruct (y_cnt >=? _card_num_y lay)%Z);
    cbn [app cut_at existsb];
    repeat match goal with
           | |- context [fails ?ev] => destruct (fails ev)
           end;
    reflexivity.
Qed.

Lemma for_in_guarded (self : BaseGenerator) (lay : Layout)
    (cfg : CutlineConfig) (rtl : bool) (iw ih : Q) (images : list Image) :
  forall cnt : Z * Z,
    for_in images cnt (loop_body_with (guarded fails e) self lay cfg rtl iw ih)
    = (cut_at fails (loop_calls self lay rtl iw ih cfg cnt images),
       if existsb fails (loop_calls self lay rtl iw ih cfg cnt images)
       then Raise e else Ok (loop_cnt lay cnt images)).
Proof.
  induction images as [|i rest IH]; intros cnt; [reflexivity|].
  cbn [for_in loop_calls loop_cnt].
  rewrite loop_body_guarded, cut_at_app, existsb_app. unfold bind.
  destruct (existsb fails (body_calls self lay rtl iw ih cfg cnt i)) eqn:B;
    cbn [orb].
  - reflexivity.
  - rewrite IH, (cut_at_none _ B). reflexivity.
Qed.

(** X12: an exception raised by a hook ends the run at that call.  With
    hooks that raise [e] on the calls selected by [fails], the run makes the
    calls of the unhindered run up to and including the first selected
    one and then raises [e], without any later call (the page is neither
    completed nor rendered); when no call is selected, or the layout itself
    fails, calls and outcome are those of the unhindered run. *)
Theorem X12_hook_error_stops_the_run (self : BaseGenerator)
    (cat : ImageCatalog Image) (cfg : CutlineConfig) (rtl : bool) :
  generate_with (guarded fails e) self cat cfg rtl
  = (cut_at fails (fst (generate self cat cfg rtl)),
     if existsb fails (fst (generate self cat cfg rtl)) then Raise e
     else snd (generate self cat cfg rtl)).
Proof.
  destruct (_generate_cut_line self (image_size cat)
              (trim_offset_x cfg, trim_offset_y cfg)) as [lay|e'] eqn:E.
  - rewrite (generate_run Image self cat cfg rtl lay E). cbn [fst snd].
    destruct (layout_ok_truediv _ _ _ _ E) as (Ew & Eh).
    unfold generate_with. rewrite E, Ew, Eh. unfold lift. cbn [bind app].
    rewrite for_in_guarded, cut_at_app, existsb_app. cbn [bind].
    destruct (existsb fails
                (loop_calls self lay rtl
                   (image_width_in self (image_size cat))
                   (image_height_in self (image_size cat)) cfg (0, 0)%Z
                   (image_set cat))) eqn:B; cbn [orb].
    + reflexivity.
    + rewrite (cut_at_none _ B).
      destruct (loop_cnt lay (0, 0)%Z (image_set cat)) as [x_cnt y_cnt].
      unfold final_calls, fresh, when, cut_if, guarded, guard, bind, ret.
      cbn [fst snd render_page draw_cutlines].
      destruct (x_cnt =? 0)%Z; destruct (y_cnt =? 0)%Z; cbn;
        try destruct (layer cfg =? "top")%string; cbn;
        repeat match goal with
               | |- context [fails ?ev] => destruct (fails ev)
               end;
        rewrite ?app_nil_r; reflexivity.
  - rewrite (@generate_layout_raises Image self cat cfg rtl e' E).
    unfold generate_with. rewrite E. reflexivity.
Qed.

End HookErrors.

(** ** Images on one page *)

Lemma scaled_step (a b : Z) (w : Q) :
  (a < b)%Z -> 0 < w -> inject_Z a * w + w <= inject_Z b * w.
Proof.
  intros Hab Hw.
  assert (B : 0 <= (inject_Z b - inject_Z a - 1) * w).
  { apply Qmult_le_0_compat; [|lra].
    setoid_replace (inject_Z b - inject_Z a - 1)
      with (inject_Z (b + - a + - 1))
      by (rewrite !inject_Z_plus, !inject_Z_opp; reflexivity).
    change 0 with (inject_Z 0). rewrite <- Zle_Qle. lia. }
  setoid_replace ((inject_Z b - inject_Z a - 1) * w)
    with (inject_Z b * w - inject_Z a * w - w) in B by ring.
  lra.
Qed.

Section Overlap.

Variable Image : Type.

(** X13: images of one page never overlap.  On exactly representable
    lengths, with a grid of [c >= 1] by [r >= 1] cards and an image of
    positive size, two different images of the same block of [c * r]
    consecutive images (one page) are drawn in rectangles that are side by
    side or one above the other: one ends, horizontally or vertically,
    where or before the other begins. *)
Theorem X13_images_do_not_overlap (self : BaseGenerator)
    (cat : ImageCatalog Image) (cfg : CutlineConfig) (rtl : bool)
    (lay : Layout) (k k' : nat) (i i' : Image) :
  _generate_cut_line self (image_size cat)
    (trim_offset_x cfg, trim_offset_y cfg) = Ok lay ->
  exact_units self (image_size cat) ->
  0 < image_width_in self (image_size cat) ->
  0 < image_height_in self (image_size cat) ->
  (1 <= _card_num_x lay)%Z -> (1 <= _card_num_y lay)%Z ->
  nth_error (image_set cat) k = Some i ->
  nth_error (image_set cat) k' = Some i' ->
  k <> k' ->
  (Z.of_nat k / (_card_num_x lay * _card_num_y lay)
   = Z.of_nat k' / (_card_num_x lay * _card_num_y lay))%Z ->
  exists (x y x' y' : Q) (dim : Q * Q),
    nth_error (filter is_draw (fst (generate self cat cfg rtl))) k
    = Some (DrawImage i x y dim)
    /\ nth_error (filter is_draw (fst (generate self cat cfg rtl))) k'
       = Some (DrawImage i' x' y' dim)
    /\ (x + fst dim <= x' \/ x' + fst dim <= x
        \/ y + snd dim <= y' \/ y' + snd dim <= y).
Proof.
  intros E _ Pw Ph Hc Hr Hk Hk' Hne Hpage.
  pose proof (draw_cell_closed_form Image self cat cfg rtl lay k i
                E Hc Hr Hk) as D.
  pose proof (draw_cell_closed_form Image self cat cfg rtl lay k' i'
                E Hc Hr Hk') as D'.
  cbv zeta in D, D'.
  set (cr := (_card_num_x lay * _card_num_y lay)%Z) in *.
  set (c := _card_num_x lay) in *.
  set (p := (Z.of_nat k mod cr)%Z) in *.
  set (p' := (Z.of_nat k' mod cr)%Z) in *.
  set (iw := image_width_in self (image_size cat)) in *.
  set (ih := image_height_in self (image_size cat)) in *.
  assert (Hp : p <> p').
  { unfold p, p'. intros Epp.
    pose proof (Z.div_mod (Z.of_nat k) cr ltac:(unfold cr; nia)) as A.
    pose proof (Z.div_mod (Z.of_nat k') cr ltac:(unfold cr; nia)) as A'.
    rewrite Hpage, Epp in A. apply Hne. lia. }
  assert (Hcell : (p mod c < p' mod c \/ p' mod c < p mod c
                   \/ p / c < p' / c \/ p' / c < p / c)%Z).
  { pose proof (Z.div_mod p c ltac:(unfold c; lia)) as A.
    pose proof (Z.div_mod p' c ltac:(unfold c; lia)) as A'.
    destruct (Z.lt_trichotomy (p / c) (p' / c)) as [L|[Eq|L]];
      [right; right; left; exact L | | right; right; right; exact L].
    destruct (Z.lt_trichotomy (p mod c) (p' mod c)) as [L|[Eq'|L]];
      [left; exact L | | right; left; exact L].
    exfalso. apply Hp. rewrite A, A', Eq, Eq'. reflexivity. }
  do 5 eexists. split; [exact D|]. split; [exact D'|].
  cbn [fst snd].
  destruct Hcell as [L|[L|[L|L]]].
  - pose proof (scaled_step _ _ iw L Pw) as S1.
    pose proof (scaled_step (p mod c + 1) (p' mod c + 1) iw
                  ltac:(lia) Pw) as S2.
    destruct rtl; [right; left | left]; lra.
  - pose proof (scaled_step _ _ iw L Pw) as S1.
    pose proof (scaled_step (p' mod c + 1) (p mod c + 1) iw
                  ltac:(lia) Pw) as S2.
    destruct rtl; [left | right; left]; lra.
  - pose proof (scaled_step _ _ ih L Ph) as S1.
    right; right; left. lra.
  - pose proof (scaled_step _ _ ih L Ph) as S1.
    right; right; right. lra.
Qed.

End Overlap.

(** ** The gap of a trim cut *)

Lemma nth_inset_pairs (line : Q -> CutLine) (margin len trim : Q) (n : nat) :
  forall first j : nat,
    (j < n)%nat ->
    nth_error (inset_pairs line margin len trim first n) (2 * j)
    = Some (line (margin + inject_Z (Z.of_nat (first + j)) * len + trim))
    /\ nth_error (inset_pairs line margin len trim first n) (2 * j + 1)
       = Some (line (margin + inject_Z (Z.of_nat (first + j)) * len + len
                     - trim)).
Proof.
  unfold inset_pairs.
  induction n as [|n IH]; intros first j Hj; [lia|].
  cbn [seq flat_map app].
  destruct j as [|j].
  - rewrite Nat.add_0_r. split; reflexivity.
  - replace (2 * S j)%nat with (S (S (2 * j))) by lia.
    replace (S (S (2 * j)) + 1)%nat with (S (S (2 * j + 1))) by lia.
    cbn [nth_error].
    replace (first + S j)%nat with (S first + j)%nat by lia.
    apply IH. lia.
Qed.

Lemma inset_pairs_length (line : Q -> CutLine) (margin len trim : Q)
    (first n : nat) :
  List.length (inset_pairs line margin len trim first n) = (2 * n)%nat.
Proof.
  unfold inset_pairs. revert first.
  induction n as [|n IH]; intros first; [reflexivity|].
  cbn [seq flat_map app List.length]. rewrite IH. lia.
Qed.

Lemma Forall2_nth_error {A : Type} (R : A -> A -> Prop) (xs ys : list A) :
  Forall2 R xs ys ->
  forall (j : nat) (a : A),
    nth_error xs j = Some a ->
    exists b : A, nth_error ys j = Some b /\ R a b.
Proof.
  intros F. induction F as [|x y xs ys Hxy _ IH]; intros j a Hj.
  - destruct j; discriminate Hj.
  - destruct j as [|j].
    + cbn in Hj. injection Hj as <-. exists y. split; [reflexivity|exact Hxy].
    + cbn in Hj. cbn. apply IH, Hj.
Qed.

(** In a list that matches the inset pairs, the second line of a cell and
    the first line of the next cell are [2 * trim] apart. *)
Lemma inset_gap (line : Q -> CutLine) (pos : CutLine -> Q)
    (margin len trim : Q) (n : nat) (ls : list CutLine) :
  (forall x, pos (line x) = x) ->
  (forall a b, cutline_eq a b -> pos a == pos b) ->
  Forall2 cutline_eq ls (inset_pairs line margin len trim 0 n) ->
  forall (j : nat) (a b : CutLine),
    nth_error ls (2 * j + 1) = Some a ->
    nth_error ls (2 * (j + 1)) = Some b ->
    pos b - pos a == 2 * trim.
Proof.
  intros Hpos Heq F j a b Ha Hb.
  assert (Hj : (j + 1 < n)%nat).
  { assert (L : (2 * (j + 1) < List.length ls)%nat)
      by (apply nth_error_Some; rewrite Hb; discriminate).
    rewrite (Forall2_length F), inset_pairs_length in L. lia. }
  destruct (Forall2_nth_error _ _ _ F _ _ Ha) as (a' & Ha' & Ra).
  destruct (Forall2_nth_error _ _ _ F _ _ Hb) as (b' & Hb' & Rb).
  destruct (nth_inset_pairs line margin len trim n 0 j ltac:(lia)) as (_ & Na).
  destruct (nth_inset_pairs line margin len trim n 0 (j + 1) Hj) as (Nb & _).
  rewrite Na in Ha'. rewrite Nb in Hb'.
  injection Ha' as <-. injection Hb' as <-.
  rewrite (Heq _ _ Ra), (Heq _ _ Rb), !Hpos.
  cbn [plus]. rewrite Nat2Z.inj_add, inject_Z_plus.
  change (inject_Z (Z.of_nat 1)) with 1. ring.
Qed.

(** X14: the gap of a trim cut.  On exactly representable lengths, in a
    successful layout with a positive horizontal trim offset, the right-hand
    line of each column and the left-hand line of the next column, which
    follow each other in the list of vertical lines, are exactly twice the
    trim offset apart; likewise for the rows with a positive vertical trim
    offset. *)
Theorem X14_trim_gap (self : BaseGenerator) (img : Z * Z) (trim : Q * Q)
    (lay : Layout) :
  _generate_cut_line self img trim = Ok lay ->
  exact_units self img ->
  exact_length (fst trim) -> exact_length (snd trim) ->
  exists V H : list CutLine,
    _cutline_set lay = V ++ H
    /\ Forall (is_vline self) V /\ Forall (is_hline self) H
    /\ (0 < fst trim ->
        forall (j : nat) (right_cut left_cut : CutLine),
          nth_error V (2 * j + 1) = Some right_cut ->
          nth_error V (2 * (j + 1)) = Some left_cut ->
          x0 left_cut - x0 right_cut == 2 * fst trim)
    /\ (0 < snd trim ->
        forall (j : nat) (bottom_cut top_cut : CutLine),
          nth_error H (2 * j + 1) = Some bottom_cut ->
          nth_error H (2 * (j + 1)) = Some top_cut ->
          y0 top_cut - y0 bottom_cut == 2 * snd trim).
Proof.
  intros E _ _ _.
  destruct (@generate_cut_line_ok _ _ _ _ E) as (_ & _ & _ & Hset).
  eexists. eexists. split; [exact Hset|].
  split; [apply vertical_cutlines_shape|].
  split; [apply horizontal_cutlines_shape|].
  split; intros Ht.
  - apply (inset_gap (vline self) x0 (_cut_margin_x lay)
             (image_width_in self img) (fst trim)
             (Z.to_nat (_card_num_x lay))).
    + reflexivity.
    + intros a b (Hx & _). exact Hx.
    + apply vertical_cutlines_trim, truthy_pos, Ht.
  - apply (inset_gap (hline self) y0 (_cut_margin_y lay)
             (image_height_in self img) (snd trim)
             (Z.to_nat (_card_num_y lay))).
    + reflexivity.
    + intros a b (_ & Hy & _). exact Hy.
    + apply horizontal_cutlines_trim, truthy_pos, Ht.
Qed.

(** ** Concrete runs, continued *)

Lemma X8_rtl_mirrors_the_page_witness :
  exists (x_rtl x_ltr y_pos : Q) (dim : Q * Q),
    nth_error (filter is_draw (fst (generate a4_units ten_images top_cfg true))) 0
    = Some (DrawImage 0%nat x_rtl y_pos dim)
    /\ nth_error
         (filter is_draw (fst (generate a4_units ten_images top_cfg false))) 0
       = Some (DrawImage 0%nat x_ltr y_pos dim)
    /\ page_width a4_units - (x_rtl + fst dim) == x_ltr.
Proof.
  exact (X8_rtl_mirrors_the_page nat a4_units ten_images top_cfg a4_layout
           0 0%nat eq_refl a4_exact_units eq_refl).
Defined.

Lemma X9_row_major_cells_witness :
  nth_error (filter is_draw (fst (generate a4_units ten_images top_cfg false))) 4
  = Some (DrawImage 4%nat
            (_cut_margin_x a4_layout
             + inject_Z 1 * image_width_in a4_units (600, 900)%Z)
            (_cut_margin_y a4_layout
             + inject_Z 1 * image_height_in a4_units (600, 900)%Z)
            (image_width_in a4_units (600, 900)%Z,
             image_height_in a4_units (600, 900)%Z)).
Proof.
  apply (X9_row_major_cells nat a4_units ten_images top_cfg false a4_layout
           4 4%nat eq_refl).
  - cbn; lia.
  - cbn; lia.
  - reflexivity.
Defined.

Lemma X10_images_inside_margins_witness :
  Forall (inside_margins a4_units)
    (fst (generate a4_units ten_images top_cfg true)).
Proof.
  apply (X10_images_inside_margins nat a4_units ten_images top_cfg true
           a4_layout 2040 2910).
  - reflexivity.
  - exact a4_exact_units.
  - reflexivity.
  - reflexivity.
  - reflexivity.
  - reflexivity.
  - reflexivity.
  - cbn; lia.
  - cbn; lia.
Defined.

Lemma X11_empty_catalog_witness :
  generate a4_units (mkImageCatalog (600, 900)%Z (@nil nat)) top_cfg false
  = ([], Ok tt).
Proof.
  apply (X11_empty_catalog nat a4_units
           (mkImageCatalog (600, 900)%Z (@nil nat)) top_cfg false).
  reflexivity.
Defined.

Lemma X13_images_do_not_overlap_witness :
  exists (x y x' y' : Q) (dim : Q * Q),
    nth_error (filter is_draw (fst (generate a4_units ten_images top_cfg false))) 0
    = Some (DrawImage 0%nat x y dim)
    /\ nth_error
         (filter is_draw (fst (generate a4_units ten_images top_cfg false))) 1
       = Some (DrawImage 1%nat x' y' dim)
    /\ (x + fst dim <= x' \/ x' + fst dim <= x
        \/ y + snd dim <= y' \/ y' + snd dim <= y).
Proof.
  apply (X13_images_do_not_overlap nat a4_units ten_images top_cfg false
           a4_layout 0 1 0%nat 1%nat).
  - reflexivity.
  - exact a4_exact_units.
  - reflexivity.
  - reflexivity.
  - cbn; lia.
  - cbn; lia.
  - reflexivity.
  - reflexivity.
  - discriminate.
  - reflexivity.
Defined.

Lemma X14_trim_gap_witness :
  exists (lay : Layout) (V H : list CutLine),
    _generate_cut_line a4_units (600, 900)%Z (10, 10) = Ok lay
    /\ _cutline_set lay = V ++ H
    /\ forall right_cut left_cut : CutLine,
         nth_error V 1 = Some right_cut ->
         nth_error V 2 = Some left_cut ->
         x0 left_cut - x0 right_cut == 2 * 10.
Proof.
  edestruct (X14_trim_gap a4_units (600, 900)%Z (10, 10))
    as (V & H & Hset & _ & _ & Hx & _);
    [reflexivity | exact a4_exact_units | exact exact_length_10
     | exact exact_length_10 |].
  eexists. exists V, H. split; [reflexivity|]. split; [exact Hset|].
  intros right_cut left_cut Hr Hl.
  exact (Hx ltac:(reflexivity) 0%nat right_cut left_cut Hr Hl).
Defined.
